(** * Logistic-regression core of [image_classification.py]

    A shallow embedding of the numeric core of the cat / non-cat classifier:
    [initialize_with_zeros], [sigmoid], [propagate], [optimize], [predict]
    and [model].

    Conventions of the embedding.
    - numpy's float64 entries are read as real numbers ([R]): the theorems
      speak about the program in exact arithmetic, rounding and saturation
      of floating point are outside the model.
    - A numpy array is a two-dimensional [ndarray]: its shape and its
      entries in row-major order.
    - A Python exception is a value of [exn]; a function that can raise
      returns a [result].
    - [print] and the plotting calls produce no value the core uses; they are
      left out, except where evaluating their arguments can raise.
    - The functions are read twice: first over array values, which is enough
      for what they compute, then over a store of array objects, to state
      which objects a call writes.  The two readings are proved to agree. *)

From Stdlib Require Import Reals Lra Lia List ZArith Bool Arith Sorted.
Import ListNotations.

Open Scope R_scope.

(** ** Exceptions and results *)

Inductive exn : Type :=
| ValueError_negative_dimensions   (* np.zeros with a negative dimension *)
| ValueError_shapes_not_aligned    (* np.dot: inner dimensions differ *)
| ValueError_broadcast             (* operands could not be broadcast together *)
| ValueError_reshape               (* cannot reshape array of size n into shape s *)
| ValueError_unpack                (* too many / not enough values to unpack *)
| ZeroDivisionError
| AssertionError
| IndexError
| TypeError
| UnboundLocalError                (* local variable referenced before assignment *)
| NameError                        (* name is not defined *)
| InvalidReference.                (* a reference outside the store: never raised by Python *)

Inductive result (A : Type) : Type :=
| Ok (a : A)
| Err (e : exn).

Arguments Ok {A} a.
Arguments Err {A} e.

Definition bind {A B : Type} (r : result A) (k : A -> result B) : result B :=
  match r with
  | Ok a => k a
  | Err e => Err e
  end.

Notation "x <- c1 ;; c2" := (bind c1 (fun x => c2))
  (at level 61, c1 at next level, right associativity).
Notation "' pat <- c1 ;; c2" := (bind c1 (fun x => match x with pat => c2 end))
  (at level 61, pat pattern, c1 at next level, right associativity).

Definition assert (c : bool) : result unit :=
  if c then Ok tt else Err AssertionError.

(** ** Two-dimensional arrays *)

Record ndarray : Type := mk_ndarray {
  nrows : nat;
  ncols : nat;
  elems : list (list R)
}.

Definition shape (A : ndarray) : nat * nat := (nrows A, ncols A).

Definition size (A : ndarray) : nat := (nrows A * ncols A)%nat.

(** Every array numpy builds is rectangular. *)
Definition wf (A : ndarray) : Prop :=
  length (elems A) = nrows A /\
  Forall (fun row => length row = ncols A) (elems A).

Definition get (A : ndarray) (i j : nat) : R :=
  nth j (nth i (elems A) []) 0.

Definition tabulate (r c : nat) (f : nat -> nat -> R) : ndarray :=
  {| nrows := r;
     ncols := c;
     elems := map (fun i => map (fun j => f i j) (seq 0 c)) (seq 0 r) |}.

Definition shape_eqb (s t : nat * nat) : bool :=
  (fst s =? fst t)%nat && (snd s =? snd t)%nat.

Definition Rsum (l : list R) : R := fold_right Rplus 0 l.

(** [sum_upto n f] is f 0 + ... + f (n-1). *)
Definition sum_upto (n : nat) (f : nat -> R) : R := Rsum (map f (seq 0 n)).

(** *** numpy operations *)

(** [np.zeros((r, c))]. *)
Definition np_zeros (r c : Z) : result ndarray :=
  if ((r <? 0) || (c <? 0))%Z then Err ValueError_negative_dimensions
  else Ok (tabulate (Z.to_nat r) (Z.to_nat c) (fun _ _ => 0)).

(** [A.T]. *)
Definition transpose (A : ndarray) : ndarray :=
  tabulate (ncols A) (nrows A) (fun i j => get A j i).

(** [np.dot(A, B)] on two-dimensional arrays. *)
Definition np_dot (A B : ndarray) : result ndarray :=
  if (ncols A =? nrows B)%nat
  then Ok (tabulate (nrows A) (ncols B)
             (fun i j => sum_upto (ncols A) (fun k => get A i k * get B k j)))
  else Err ValueError_shapes_not_aligned.

(** Elementwise application of a scalar function: [np.exp], [np.log],
    [np.abs], and arithmetic between an array and a scalar. *)
Definition nd_map (f : R -> R) (A : ndarray) : ndarray :=
  tabulate (nrows A) (ncols A) (fun i j => f (get A i j)).

(** numpy's broadcasting rule for one axis. *)
Definition broadcast_dim (a b : nat) : option nat :=
  if (a =? b)%nat then Some a
  else if (a =? 1)%nat then Some b
  else if (b =? 1)%nat then Some a
  else None.

(** The index read along an axis of length [n] when broadcasting. *)
Definition bidx (n i : nat) : nat := if (n =? 1)%nat then 0%nat else i.

(** Elementwise binary operation between two arrays, with broadcasting:
    [A + B], [A - B], [np.multiply(A, B)]. *)
Definition nd_zip (op : R -> R -> R) (A B : ndarray) : result ndarray :=
  match broadcast_dim (nrows A) (nrows B), broadcast_dim (ncols A) (ncols B) with
  | Some r, Some c =>
      Ok (tabulate r c
            (fun i j => op (get A (bidx (nrows A) i) (bidx (ncols A) j))
                           (get B (bidx (nrows B) i) (bidx (ncols B) j))))
  | _, _ => Err ValueError_broadcast
  end.

(** [np.sum(A)]. *)
Definition np_sum (A : ndarray) : R := Rsum (concat (elems A)).

(** [np.mean(A)]. *)
Definition np_mean (A : ndarray) : R := np_sum A / INR (size A).

(** [A.reshape(r, c)] for non-negative [r] and [c]. *)
Definition reshape (A : ndarray) (r c : nat) : result ndarray :=
  if (size A =? r * c)%nat
  then Ok (tabulate r c (fun i j => nth (i * c + j) (concat (elems A)) 0))
  else Err ValueError_reshape.

(** [A[i, j]] with non-negative indices. *)
Definition getitem (A : ndarray) (i j : nat) : result R :=
  if ((i <? nrows A) && (j <? ncols A))%nat then Ok (get A i j)
  else Err IndexError.

Fixpoint list_set {T : Type} (l : list T) (n : nat) (x : T) : list T :=
  match l, n with
  | [], _ => []
  | _ :: t, O => x :: t
  | h :: t, S n' => h :: list_set t n' x
  end.

(** The array [A] after [A[i, j] = x]. *)
Definition setitem (A : ndarray) (i j : nat) (x : R) : result ndarray :=
  if ((i <? nrows A) && (j <? ncols A))%nat
  then Ok {| nrows := nrows A;
             ncols := ncols A;
             elems := list_set (elems A) i (list_set (nth i (elems A) []) j x) |}
  else Err IndexError.

(** Python's [x / m] for an int [m]. *)
Definition py_div (x : R) (m : nat) : result R :=
  match m with
  | O => Err ZeroDivisionError
  | S _ => Ok (x / INR m)
  end.

(** [range(n)]: empty when [n <= 0]. *)
Definition range (n : Z) : list nat := seq 0 (Z.to_nat n).

(** A [for] loop over a list of indices, threading the loop's variables;
    an exception raised by the body leaves the loop. *)
Fixpoint for_each {St I : Type} (body : I -> St -> result St)
  (idx : list I) (st : St) : result St :=
  match idx with
  | [] => Ok st
  | i :: rest => st' <- body i st ;; for_each body rest st'
  end.

(** Reading a local variable that an assignment may not have bound yet. *)
Definition read_local {T : Type} (v : option T) : result T :=
  match v with
  | Some x => Ok x
  | None => Err UnboundLocalError
  end.

(** ** The program *)

(** [initialize_with_zeros(dim)].  The second assertion of the source,
    that [b] is a float or an int, holds of the literal 0 and is left out. *)
Definition initialize_with_zeros (dim : Z) : result (ndarray * R) :=
  w <- np_zeros dim 1 ;;
  let b := 0 in
  _ <- assert (shape_eqb (shape w) (Z.to_nat dim, 1%nat)) ;;
  Ok (w, b).

(** [sigmoid(z)] at a scalar. *)
Definition sigmoid (z : R) : R := 1 / (1 + exp (- z)).

(** [sigmoid(z)] at an array: [-z], [np.exp], [1 + _] and [1 / _], each
    entry by entry. *)
Definition sigmoid_nd (z : ndarray) : ndarray :=
  nd_map (fun x => 1 / x)
    (nd_map (fun x => 1 + x) (nd_map exp (nd_map Ropp z))).

Record grads_t : Type := mk_grads { dw : ndarray; db : R }.

(** [propagate(w, b, X, Y)].  Steps are in the order Python evaluates them,
    which decides the exception raised on ill-shaped inputs.  Of the three
    assertions of the source, the one on the shape of [dw] can fail; [db] is
    always a float and [cost] always a scalar, so those two are left out. *)
Definition propagate (w : ndarray) (b : R) (X Y : ndarray)
  : result (grads_t * R) :=
  let m := ncols X in
  D <- np_dot (transpose w) X ;;
  let A := sigmoid_nd (nd_map (fun x => x + b) D) in
  s <- py_div (-1) m ;;
  P1 <- nd_zip Rmult Y (nd_map ln A) ;;
  P2 <- nd_zip Rmult (nd_map (fun y => 1 - y) Y)
                     (nd_map ln (nd_map (fun a => 1 - a) A)) ;;
  P <- nd_zip Rplus P1 P2 ;;
  let cost := s * np_sum P in
  t <- py_div 1 m ;;
  AY <- nd_zip Rminus A Y ;;
  G <- np_dot X (transpose AY) ;;
  let dw := nd_map (fun g => t * g) G in
  t' <- py_div 1 m ;;
  AY' <- nd_zip Rminus A Y ;;
  let db := t' * np_sum AY' in
  _ <- assert (shape_eqb (shape dw) (shape w)) ;;
  Ok ({| dw := dw; db := db |}, cost).

(** The dictionary [{"w": w, "b": b}]. *)
Record params_t : Type := mk_params { p_w : ndarray; p_b : R }.

(** The local variables of [optimize] that its loop assigns.  [dw] and [db]
    are bound by the first iteration only. *)
Record loop_state : Type := mk_loop_state {
  ls_w : ndarray;
  ls_b : R;
  ls_dw : option ndarray;
  ls_db : option R;
  ls_costs : list R;
  ls_iterations : list nat
}.

(** What [optimize] returns: the tuple [(params, grads, costs, iterations)]. *)
Record optimize_result : Type := mk_optimize_result {
  params : params_t;
  grads : grads_t;
  costs : list R;
  iterations : list nat
}.

(** One pass through the body of the loop of [optimize], at index [i]. *)
Definition optimize_body (X Y : ndarray) (learning_rate : R) (print_cost : bool)
  (i : nat) (st : loop_state) : result loop_state :=
  '(grads, cost) <- propagate (ls_w st) (ls_b st) X Y ;;
  let dw := dw grads in
  let db := db grads in
  w <- nd_zip Rminus (ls_w st) (nd_map (fun g => learning_rate * g) dw) ;;
  let b := ls_b st - learning_rate * db in
  let record := (i mod 100 =? 0)%nat in
  Ok {| ls_w := w;
        ls_b := b;
        ls_dw := Some dw;
        ls_db := Some db;
        ls_costs := if record then ls_costs st ++ [cost] else ls_costs st;
        ls_iterations :=
          if record then ls_iterations st ++ [i] else ls_iterations st |}.

(** [optimize(w, b, X, Y, num_iterations, learning_rate, print_cost)]. *)
Definition optimize (w : ndarray) (b : R) (X Y : ndarray) (num_iterations : Z)
  (learning_rate : R) (print_cost : bool) : result optimize_result :=
  let st0 := {| ls_w := w; ls_b := b; ls_dw := None; ls_db := None;
                ls_costs := []; ls_iterations := [] |} in
  st <- for_each (optimize_body X Y learning_rate print_cost)
                 (range num_iterations) st0 ;;
  let params := {| p_w := ls_w st; p_b := ls_b st |} in
  dw <- read_local (ls_dw st) ;;
  db <- read_local (ls_db st) ;;
  let grads := {| dw := dw; db := db |} in
  Ok {| params := params; grads := grads;
        costs := ls_costs st; iterations := ls_iterations st |}.

(** One pass through the thresholding loop of [predict]. *)
Definition predict_body (A : ndarray) (i : nat) (Y_prediction : ndarray)
  : result ndarray :=
  a <- getitem A 0 i ;;
  if Rgt_dec a 0.5 then setitem Y_prediction 0 i 1
  else setitem Y_prediction 0 i 0.

(** [predict(w, b, X)]. *)
Definition predict (w : ndarray) (b : R) (X : ndarray) : result ndarray :=
  let m := ncols X in
  Y_prediction <- np_zeros 1 (Z.of_nat m) ;;
  w <- reshape w (nrows X) 1 ;;
  D <- np_dot (transpose w) X ;;
  let A := sigmoid_nd (nd_map (fun x => x + b) D) in
  Y_prediction <- for_each (predict_body A) (seq 0 (ncols A)) Y_prediction ;;
  _ <- assert (shape_eqb (shape Y_prediction) (1%nat, m)) ;;
  Ok Y_prediction.

(** The Python objects [optimize] puts in the tuple it returns. *)
Inductive pyobj : Type :=
| PyParams (p : params_t)
| PyGrads (g : grads_t)
| PyFloatList (l : list R)
| PyIntList (l : list nat).

Definition optimize_tuple (r : optimize_result) : list pyobj :=
  [PyParams (params r); PyGrads (grads r);
   PyFloatList (costs r); PyIntList (iterations r)].

(** The assignment [x, y, z = t]: the tuple must have exactly three items. *)
Definition unpack3 (t : list pyobj) : result (pyobj * pyobj * pyobj) :=
  match t with
  | [x; y; z] => Ok (x, y, z)
  | _ => Err ValueError_unpack
  end.

(** [parameters["w"]] and [parameters["b"]]. *)
Definition subscript_params (o : pyobj) : result params_t :=
  match o with
  | PyParams p => Ok p
  | _ => Err TypeError
  end.

(** The dictionary [d] that [model] builds. *)
Record model_t : Type := mk_model {
  d_costs : pyobj;
  d_Y_prediction_test : ndarray;
  d_Y_prediction_train : ndarray;
  d_w : ndarray;
  d_b : R;
  d_learning_rate : R;
  d_num_iterations : Z
}.

(** The percentage [100 - np.mean(np.abs(P - Y)) * 100] that [model] prints. *)
Definition accuracy (P Y : ndarray) : result R :=
  D <- nd_zip Rminus P Y ;;
  Ok (100 - np_mean (nd_map Rabs D) * 100).

(** [model(X_train, Y_train, X_test, Y_test, num_iterations, learning_rate,
    print_cost)], up to the call [plt.plot(iterations, costs)]: the name
    [iterations] is bound neither in [model] nor in the module, so no
    statement after it runs. *)
Definition model (X_train Y_train X_test Y_test : ndarray) (num_iterations : Z)
  (learning_rate : R) (print_cost : bool) : result model_t :=
  '(w, b) <- initialize_with_zeros (Z.of_nat (nrows X_train)) ;;
  r <- optimize w b X_train Y_train num_iterations learning_rate print_cost ;;
  '(parameters, grads, costs) <- unpack3 (optimize_tuple r) ;;
  p <- subscript_params parameters ;;
  let w := p_w p in
  let b := p_b p in
  Y_prediction_test <- predict w b X_test ;;
  Y_prediction_train <- predict w b X_train ;;
  train_accuracy <- accuracy Y_prediction_train Y_train ;;
  test_accuracy <- accuracy Y_prediction_test Y_test ;;
  let d := {| d_costs := costs;
              d_Y_prediction_test := Y_prediction_test;
              d_Y_prediction_train := Y_prediction_train;
              d_w := w;
              d_b := b;
              d_learning_rate := learning_rate;
              d_num_iterations := num_iterations |} in
  @Err model_t NameError.

(** ** The program over a store of array objects

    numpy arrays are mutable objects that Python passes by reference.  To
    state which objects a call writes, the same functions are read a second
    time with the objects explicit: a [store] holds the arrays that exist, a
    [ref] names one of them, every numpy operation that builds an array
    allocates a new object, and an item assignment [A[i, j] = x] updates the
    object in place.  Scalars, tuples of scalars and the Python lists of
    [optimize] are not shared with the caller before the call returns and
    stay values.  [w.T] and [w.reshape] are read-only here (no assignment
    goes through them), so they are new objects too. *)

Definition ref : Type := nat.

Definition store : Type := list ndarray.

(** A computation over the store; an exception leaves the store as it was
    when it was raised. *)
Definition M (A : Type) : Type := store -> result A * store.

Definition ret_s {A : Type} (a : A) : M A := fun s => (Ok a, s).

Definition bind_s {A B : Type} (m : M A) (k : A -> M B) : M B :=
  fun s => match m s with
           | (Ok a, s') => k a s'
           | (Err e, s') => (Err e, s')
           end.

Notation "x <~ c1 ;; c2" := (bind_s c1 (fun x => c2))
  (at level 61, c1 at next level, right associativity).

(** A computation that does not touch the store. *)
Definition lift {A : Type} (r : result A) : M A := fun s => (r, s).

(** A new array object. *)
Definition alloc (v : ndarray) : M ref := fun s => (Ok (length s), s ++ [v]).

(** The array a reference denotes. *)
Definition load (r : ref) : M ndarray :=
  fun s => match nth_error s r with
           | Some v => (Ok v, s)
           | None => (Err InvalidReference, s)
           end.

(** [A[i, j] = x]: the object [r] is updated in place. *)
Definition store_item (r : ref) (i j : nat) (x : R) : M unit :=
  fun s => match nth_error s r with
           | Some v =>
               match setitem v i j x with
               | Ok v' => (Ok tt, list_set s r v')
               | Err e => (Err e, s)
               end
           | None => (Err InvalidReference, s)
           end.

Definition shape_s (a : ref) : M (nat * nat) :=
  A <~ load a ;; ret_s (shape A).

Definition np_zeros_s (r c : Z) : M ref :=
  A <~ lift (np_zeros r c) ;; alloc A.

Definition transpose_s (a : ref) : M ref :=
  A <~ load a ;; alloc (transpose A).

Definition np_dot_s (a b : ref) : M ref :=
  A <~ load a ;; B <~ load b ;; C <~ lift (np_dot A B) ;; alloc C.

Definition nd_map_s (f : R -> R) (a : ref) : M ref :=
  A <~ load a ;; alloc (nd_map f A).

Definition nd_zip_s (op : R -> R -> R) (a b : ref) : M ref :=
  A <~ load a ;; B <~ load b ;; C <~ lift (nd_zip op A B) ;; alloc C.

Definition np_sum_s (a : ref) : M R :=
  A <~ load a ;; ret_s (np_sum A).

Definition reshape_s (a : ref) (r c : nat) : M ref :=
  A <~ load a ;; C <~ lift (reshape A r c) ;; alloc C.

Definition getitem_s (a : ref) (i j : nat) : M R :=
  A <~ load a ;; lift (getitem A i j).

Fixpoint for_each_s {St I : Type} (body : I -> St -> M St)
  (idx : list I) (st : St) : M St :=
  match idx with
  | [] => ret_s st
  | i :: rest => st' <~ body i st ;; for_each_s body rest st'
  end.

(** [initialize_with_zeros(dim)] *)
Definition initialize_with_zeros_s (dim : Z) : M (ref * R) :=
  w <~ np_zeros_s dim 1 ;;
  let b := 0 in
  sw <~ shape_s w ;;
  _ <~ lift (assert (shape_eqb sw (Z.to_nat dim, 1%nat))) ;;
  ret_s (w, b).

(** [sigmoid(z)] at an array object: each of the four entrywise operations
    builds an array. *)
Definition sigmoid_s (z : ref) : M ref :=
  n <~ nd_map_s Ropp z ;;
  e <~ nd_map_s exp n ;;
  d <~ nd_map_s (fun x => 1 + x) e ;;
  nd_map_s (fun x => 1 / x) d.

Record grads_s : Type := mk_grads_s { dw_s : ref; db_s : R }.

(** [propagate(w, b, X, Y)] *)
Definition propagate_s (w : ref) (b : R) (X Y : ref) : M (grads_s * R) :=
  sX <~ shape_s X ;;
  let m := snd sX in
  wT <~ transpose_s w ;;
  D <~ np_dot_s wT X ;;
  Db <~ nd_map_s (fun x => x + b) D ;;
  A <~ sigmoid_s Db ;;
  s <~ lift (py_div (-1) m) ;;
  lA <~ nd_map_s ln A ;;
  P1 <~ nd_zip_s Rmult Y lA ;;
  Y1 <~ nd_map_s (fun y => 1 - y) Y ;;
  A1 <~ nd_map_s (fun a => 1 - a) A ;;
  lA1 <~ nd_map_s ln A1 ;;
  P2 <~ nd_zip_s Rmult Y1 lA1 ;;
  P <~ nd_zip_s Rplus P1 P2 ;;
  S <~ np_sum_s P ;;
  let cost := s * S in
  t <~ lift (py_div 1 m) ;;
  AY <~ nd_zip_s Rminus A Y ;;
  AYT <~ transpose_s AY ;;
  G <~ np_dot_s X AYT ;;
  dw <~ nd_map_s (fun g => t * g) G ;;
  t' <~ lift (py_div 1 m) ;;
  AY' <~ nd_zip_s Rminus A Y ;;
  S' <~ np_sum_s AY' ;;
  let db := t' * S' in
  sdw <~ shape_s dw ;;
  sw <~ shape_s w ;;
  _ <~ lift (assert (shape_eqb sdw sw)) ;;
  ret_s ({| dw_s := dw; db_s := db |}, cost).

Record params_s : Type := mk_params_s { w_s : ref; b_s : R }.

Record loop_state_s : Type := mk_loop_state_s {
  lss_w : ref;
  lss_b : R;
  lss_dw : option ref;
  lss_db : option R;
  lss_costs : list R;
  lss_iterations : list nat
}.

Record optimize_result_s : Type := mk_optimize_result_s {
  params_of : params_s;
  grads_of : grads_s;
  costs_of : list R;
  iterations_of : list nat
}.

Definition optimize_body_s (X Y : ref) (learning_rate : R) (print_cost : bool)
  (i : nat) (st : loop_state_s) : M loop_state_s :=
  gc <~ propagate_s (lss_w st) (lss_b st) X Y ;;
  let grads := fst gc in
  let cost := snd gc in
  let dw := dw_s grads in
  let db := db_s grads in
  step <~ nd_map_s (fun g => learning_rate * g) dw ;;
  w <~ nd_zip_s Rminus (lss_w st) step ;;
  let b := lss_b st - learning_rate * db in
  let record := (i mod 100 =? 0)%nat in
  ret_s {| lss_w := w;
           lss_b := b;
           lss_dw := Some dw;
           lss_db := Some db;
           lss_costs := if record then lss_costs st ++ [cost] else lss_costs st;
           lss_iterations :=
             if record then lss_iterations st ++ [i] else lss_iterations st |}.

(** [optimize(w, b, X, Y, num_iterations, learning_rate, print_cost)] *)
Definition optimize_s (w : ref) (b : R) (X Y : ref) (num_iterations : Z)
  (learning_rate : R) (print_cost : bool) : M optimize_result_s :=
  let st0 := {| lss_w := w; lss_b := b; lss_dw := None; lss_db := None;
                lss_costs := []; lss_iterations := [] |} in
  st <~ for_each_s (optimize_body_s X Y learning_rate print_cost)
                   (range num_iterations) st0 ;;
  let params := {| w_s := lss_w st; b_s := lss_b st |} in
  dw <~ lift (read_local (lss_dw st)) ;;
  db <~ lift (read_local (lss_db st)) ;;
  let grads := {| dw_s := dw; db_s := db |} in
  ret_s {| params_of := params; grads_of := grads;
           costs_of := lss_costs st; iterations_of := lss_iterations st |}.

Definition predict_body_s (A : ref) (i : nat) (Y_prediction : ref) : M ref :=
  a <~ getitem_s A 0 i ;;
  _ <~ (if Rgt_dec a 0.5 then store_item Y_prediction 0 i 1
        else store_item Y_prediction 0 i 0) ;;
  ret_s Y_prediction.

(** [predict(w, b, X)] *)
Definition predict_s (w : ref) (b : R) (X : ref) : M ref :=
  sX <~ shape_s X ;;
  let m := snd sX in
  Y_prediction <~ np_zeros_s 1 (Z.of_nat m) ;;
  w <~ reshape_s w (fst sX) 1 ;;
  wT <~ transpose_s w ;;
  D <~ np_dot_s wT X ;;
  Db <~ nd_map_s (fun x => x + b) D ;;
  A <~ sigmoid_s Db ;;
  sA <~ shape_s A ;;
  Y_prediction <~ for_each_s (predict_body_s A) (seq 0 (snd sA)) Y_prediction ;;
  sY <~ shape_s Y_prediction ;;
  _ <~ lift (assert (shape_eqb sY (1%nat, m))) ;;
  ret_s Y_prediction.

(** The store [s'] keeps every object of [s] as it is. *)
Definition unchanged (s s' : store) : Prop :=
  forall r v, nth_error s r = Some v -> nth_error s' r = Some v.

(** Running [m] from a store that extends [s0] leaves the objects of [s0] as
    they are, and a value it returns satisfies [Q]. *)
Definition keeps {A : Type} (s0 : store) (m : M A) (Q : A -> Prop) : Prop :=
  forall s, (exists t, s = s0 ++ t) ->
    (exists t', snd (m s) = s0 ++ t') /\
    (forall a, fst (m s) = Ok a -> Q a).

(** [r] was allocated after the store [s0] was taken. *)
Definition new_object (s0 : store) (r : ref) : Prop := (length s0 <= r)%nat.

(** After the first pass through the loop of [optimize], [w] names an object
    the loop allocated. *)
Definition rebound (s0 : store) (st : loop_state_s) : Prop :=
  lss_dw st = None \/ new_object s0 (lss_w st).

(** The reference [r] names the array [v] in the store [s]. *)
Definition denotes (s : store) (r : ref) (v : ndarray) : Prop :=
  nth_error s r = Some v.

(** Two results correspond: both return, with values related by [Rel], or
    both raise the same exception. *)
Definition same_result {A B : Type} (Rel : A -> B -> Prop)
  (rs : result A) (r : result B) : Prop :=
  match rs, r with
  | Ok a, Ok b => Rel a b
  | Err es, Err e => es = e
  | _, _ => False
  end.

(** What [propagate] returns in the two readings: the same scalars, and [dw]
    names the array the value reading returns. *)
Definition same_grads (s : store) (gs : grads_s * R) (g : grads_t * R)
  : Prop :=
  snd gs = snd g /\ db_s (fst gs) = db (fst g) /\
  denotes s (dw_s (fst gs)) (dw (fst g)).

(** The local variables of the loop of [optimize] in the two readings. *)
Definition same_loop_state (s : store) (sts : loop_state_s) (st : loop_state)
  : Prop :=
  denotes s (lss_w sts) (ls_w st) /\ lss_b sts = ls_b st /\
  match lss_dw sts, ls_dw st with
  | Some r, Some v => denotes s r v
  | None, None => True
  | _, _ => False
  end /\
  lss_db sts = ls_db st /\
  lss_costs sts = ls_costs st /\ lss_iterations sts = ls_iterations st.

(** What [optimize] returns in the two readings. *)
Definition same_optimize_result (s : store) (os : optimize_result_s)
  (o : optimize_result) : Prop :=
  denotes s (w_s (params_of os)) (p_w (params o)) /\
  b_s (params_of os) = p_b (params o) /\
  denotes s (dw_s (grads_of os)) (dw (grads o)) /\
  db_s (grads_of os) = db (grads o) /\
  costs_of os = costs o /\ iterations_of os = iterations o.

(** ** The closed forms of the specification

    Written from the formulas of the specification, entry by entry, to be
    compared with what [propagate] and [predict] compute. *)

(** Entry [j] of [A = sigmoid(w^T X + b)], for a column vector [w]. *)
Definition activation (w : ndarray) (b : R) (X : ndarray) (j : nat) : R :=
  sigmoid (sum_upto (nrows X) (fun k => get w k 0 * get X k j) + b).

(** [cost = -(1/N) * sum (Y log A + (1 - Y) log (1 - A))]. *)
Definition spec_cost (w : ndarray) (b : R) (X Y : ndarray) : R :=
  - (1 / INR (ncols X)) *
  sum_upto (ncols X)
    (fun j => get Y 0 j * ln (activation w b X j) +
              (1 - get Y 0 j) * ln (1 - activation w b X j)).

(** [dw = (1/N) * X (A - Y)^T], of shape [(F, 1)]. *)
Definition spec_dw (w : ndarray) (b : R) (X Y : ndarray) : ndarray :=
  tabulate (nrows X) 1
    (fun i _ => 1 / INR (ncols X) *
                sum_upto (ncols X)
                  (fun j => get X i j * (activation w b X j - get Y 0 j))).

(** [db = (1/N) * sum (A - Y)]. *)
Definition spec_db (w : ndarray) (b : R) (X Y : ndarray) : R :=
  1 / INR (ncols X) *
  sum_upto (ncols X) (fun j => activation w b X j - get Y 0 j).

(** The decision [predict] takes on an activation [a]. *)
Definition threshold (a : R) : R := if Rgt_dec a 0.5 then 1 else 0.

(** The inputs [propagate] is specified on: [w] of shape [(F, 1)], [X] of
    shape [(F, N)] and [Y] of shape [(1, N)]. *)
Definition well_shaped (w X Y : ndarray) : Prop :=
  nrows w = nrows X /\ ncols w = 1%nat /\
  nrows Y = 1%nat /\ ncols Y = ncols X.

(** ** The gradient-descent iteration on its own

    What one pass of the loop of [optimize] does to the parameters, and what
    [n] passes in sequence do: the reference the loop is compared with. *)

(** [(grads, cost) = propagate(w, b, X, Y)], then [w = w - learning_rate * dw]
    and [b = b - learning_rate * db]. *)
Definition gd_step (X Y : ndarray) (learning_rate : R) (p : params_t)
  : result params_t :=
  '(g, _) <- propagate (p_w p) (p_b p) X Y ;;
  w <- nd_zip Rminus (p_w p) (nd_map (fun x => learning_rate * x) (dw g)) ;;
  Ok {| p_w := w; p_b := p_b p - learning_rate * db g |}.

(** [n] steps in sequence, each from the parameters the previous one left. *)
Fixpoint gd_iter (X Y : ndarray) (learning_rate : R) (n : nat) (p : params_t)
  : result params_t :=
  match n with
  | O => Ok p
  | S n' => p' <- gd_iter X Y learning_rate n' p ;; gd_step X Y learning_rate p'
  end.

(** The iterations whose cost is recorded. *)
Definition recorded (i : nat) : bool := (i mod 100 =? 0)%nat.

(** [c] is the cost [propagate] computes from the parameters that [i] steps
    from [p0] produce, that is, at the start of iteration [i]. *)
Definition cost_at_start (X Y : ndarray) (learning_rate : R) (p0 : params_t)
  (i : nat) (c : R) : Prop :=
  exists p g, gd_iter X Y learning_rate i p0 = Ok p /\
              propagate (p_w p) (p_b p) X Y = Ok (g, c).

(** What holds of the local variables of [optimize] when [i] iterations have
    run from [p0] on well-shaped data. *)
Definition optimize_invariant (X Y : ndarray) (learning_rate : R)
  (p0 : params_t) (i : nat) (st : loop_state) : Prop :=
  well_shaped (ls_w st) X Y /\
  gd_iter X Y learning_rate i p0 = Ok {| p_w := ls_w st; p_b := ls_b st |} /\
  ls_iterations st = filter recorded (seq 0 i) /\
  Forall2 (cost_at_start X Y learning_rate p0) (ls_iterations st) (ls_costs st) /\
  ((1 <= i)%nat -> ls_dw st <> None /\ ls_db st <> None).

(** ** Loading and preprocessing the dataset

    [load_dataset] opens two HDF5 files and reads five datasets from them.
    Opening and reading are the work of h5py and of the file system; what
    was read is taken as given, in a [raw_dataset], and the functions are
    embedded from there on.  The image and label arrays are arrays of any
    rank, [narray], with the integers they hold read as real numbers. *)

(** An array of any rank: its shape and its entries in row-major order. *)
Record narray : Type := mk_narray {
  nshape : list nat;
  ndata : list R
}.

(** [A.size]. *)
Definition nsize (A : narray) : nat := fold_right Nat.mul 1%nat (nshape A).

Definition nwf (A : narray) : Prop := length (ndata A) = nsize A.

(** [A.shape[0]]. *)
Definition shape0 (A : narray) : result nat :=
  match nshape A with
  | [] => Err IndexError
  | n :: _ => Ok n
  end.

(** [A.reshape((r, c))] for non-negative [r] and [c]. *)
Definition reshape_2d (A : narray) (r c : nat) : result ndarray :=
  if (nsize A =? r * c)%nat
  then Ok (tabulate r c (fun i j => nth (i * c + j) (ndata A) 0))
  else Err ValueError_reshape.

(** [A.reshape(n, -1)]: numpy infers the second dimension, and refuses when
    [n] is 0 or does not divide the size. *)
Definition reshape_rows (A : narray) (n : nat) : result ndarray :=
  if ((n =? 0) || negb (nsize A mod n =? 0))%nat
  then Err ValueError_reshape
  else reshape_2d A n (nsize A / n).

(** What the two files hold: [train_set_x], [train_set_y], [test_set_x],
    [test_set_y] and [list_classes]. *)
Record raw_dataset (C : Type) : Type := mk_raw_dataset {
  file_train_set_x : narray;
  file_train_set_y : narray;
  file_test_set_x : narray;
  file_test_set_y : narray;
  file_list_classes : C
}.

Arguments file_train_set_x {C} _.
Arguments file_train_set_y {C} _.
Arguments file_test_set_x {C} _.
Arguments file_test_set_y {C} _.
Arguments file_list_classes {C} _.

(** [load_dataset()], from the arrays read. *)
Definition load_dataset {C : Type} (files : raw_dataset C)
  : result (narray * ndarray * narray * ndarray * C) :=
  let train_set_x_orig := file_train_set_x files in
  let train_set_y_orig := file_train_set_y files in
  let test_set_x_orig := file_test_set_x files in
  let test_set_y_orig := file_test_set_y files in
  let classes := file_list_classes files in
  m_train <- shape0 train_set_y_orig ;;
  train_set_y_orig <- reshape_2d train_set_y_orig 1 m_train ;;
  m_test <- shape0 test_set_y_orig ;;
  test_set_y_orig <- reshape_2d test_set_y_orig 1 m_test ;;
  Ok (train_set_x_orig, train_set_y_orig, test_set_x_orig, test_set_y_orig,
      classes).

(** [preprocessing()]. *)
Definition preprocessing {C : Type} (files : raw_dataset C)
  : result (ndarray * ndarray * ndarray * ndarray) :=
  '(train_set_x_orig, train_set_y, test_set_x_orig, test_set_y, classes) <-
     load_dataset files ;;
  m_train <- shape0 train_set_x_orig ;;
  train_rows <- reshape_rows train_set_x_orig m_train ;;
  let train_set_x_flatten := transpose train_rows in
  m_test <- shape0 test_set_x_orig ;;
  test_rows <- reshape_rows test_set_x_orig m_test ;;
  let test_set_x_flatten := transpose test_rows in
  let train_set_x := nd_map (fun x => x / 255) train_set_x_flatten in
  let test_set_x := nd_map (fun x => x / 255) test_set_x_flatten in
  Ok (train_set_x, train_set_y, test_set_x, test_set_y).

(** The two statements at the end of the module: preprocess, then train with
    2000 iterations and learning rate 0.01. *)
Definition script {C : Type} (files : raw_dataset C) : result model_t :=
  '(train_set_x, train_set_y, test_set_x, test_set_y) <- preprocessing files ;;
  model train_set_x train_set_y test_set_x test_set_y 2000 0.01 true.

(** Entry [(i, r, c, ch)] of an array of images of shape [(m, h, w, k)]. *)
Definition pixel (A : narray) (h w k : nat) (i r c ch : nat) : R :=
  nth (((i * h + r) * w + c) * k + ch) (ndata A) 0.

(** ** Definitions for the further properties *)

(** The one label of a [(1, 1)] array, repeated over [n] columns. *)
Definition repeat_label (Y : ndarray) (n : nat) : ndarray :=
  tabulate 1 n (fun _ _ => get Y 0 0).

(** When at least one iteration has run, [dw] and [db] hold the gradients
    [propagate] computed in the last one, from the parameters that iteration
    started with. *)
Definition last_gradients (X Y : ndarray) (learning_rate : R)
  (p0 : params_t) (i : nat) (st : loop_state) : Prop :=
  (1 <= i)%nat ->
  exists p g c,
    gd_iter X Y learning_rate (i - 1) p0 = Ok p /\
    well_shaped (p_w p) X Y /\
    propagate (p_w p) (p_b p) X Y = Ok (g, c) /\
    ls_dw st = Some (dw g) /\ ls_db st = Some (db g).

(** * Properties *)

(** ** Sums *)

Lemma Rsum_app (l1 l2 : list R) : Rsum (l1 ++ l2) = Rsum l1 + Rsum l2.
Proof.
  induction l1 as [|x l1 IH]; simpl.
  - lra.
  - rewrite IH. lra.
Qed.

Lemma sum_upto_ext (n : nat) (f g : nat -> R) :
  (forall i, (i < n)%nat -> f i = g i) -> sum_upto n f = sum_upto n g.
Proof.
  intros H. unfold sum_upto. f_equal.
  apply map_ext_in. intros i Hi. apply in_seq in Hi. apply H. lia.
Qed.

Lemma sum_upto_S (n : nat) (f : nat -> R) :
  sum_upto (S n) f = sum_upto n f + f n.
Proof.
  unfold sum_upto. rewrite seq_S, map_app, Rsum_app. simpl. lra.
Qed.

(** ** Arrays *)

Lemma get_tabulate (r c : nat) (f : nat -> nat -> R) (i j : nat) :
  (i < r)%nat -> (j < c)%nat -> get (tabulate r c f) i j = f i j.
Proof.
  intros Hi Hj. unfold get, tabulate. simpl.
  rewrite (nth_indep _ [] (map (fun j => f 0%nat j) (seq 0 c)))
    by (rewrite length_map, length_seq; exact Hi).
  rewrite (map_nth (fun i => map (fun j => f i j) (seq 0 c)) (seq 0 r) 0%nat i).
  rewrite seq_nth by exact Hi. simpl.
  rewrite (nth_indep _ 0 (f i 0%nat))
    by (rewrite length_map, length_seq; exact Hj).
  rewrite (map_nth (fun j => f i j) (seq 0 c) 0%nat j).
  rewrite seq_nth by exact Hj. reflexivity.
Qed.

Lemma wf_tabulate (r c : nat) (f : nat -> nat -> R) : wf (tabulate r c f).
Proof.
  split; simpl.
  - now rewrite length_map, length_seq.
  - apply Forall_forall. intros row Hrow.
    apply in_map_iff in Hrow. destruct Hrow as [i [<- _]].
    now rewrite length_map, length_seq.
Qed.

Lemma tabulate_ext (r c : nat) (f g : nat -> nat -> R) :
  (forall i j, (i < r)%nat -> (j < c)%nat -> f i j = g i j) ->
  tabulate r c f = tabulate r c g.
Proof.
  intros H. unfold tabulate. f_equal.
  apply map_ext_in. intros i Hi. apply in_seq in Hi.
  apply map_ext_in. intros j Hj. apply in_seq in Hj.
  apply H; lia.
Qed.

Lemma list_tabulate (T : Type) (d : T) (l : list T) :
  map (fun i => nth i l d) (seq 0 (length l)) = l.
Proof.
  induction l as [|x l IH]; simpl.
  - reflexivity.
  - f_equal. rewrite <- seq_shift, map_map. exact IH.
Qed.

(** A rectangular array is the table of its entries. *)
Lemma tabulate_get (A : ndarray) :
  wf A -> tabulate (nrows A) (ncols A) (get A) = A.
Proof.
  destruct A as [r c l]. unfold wf, tabulate, get. simpl.
  intros [Hlen Hrows]. f_equal. subst r.
  transitivity (map (fun i => nth i l []) (seq 0 (length l)));
    [|apply list_tabulate].
  apply map_ext_in. intros i Hi. apply in_seq in Hi.
  assert (Hc : length (nth i l []) = c).
  { rewrite Forall_forall in Hrows. apply Hrows. apply nth_In. lia. }
  rewrite <- Hc. apply list_tabulate.
Qed.

(** Two rectangular arrays of one shape with the same entries are equal. *)
Lemma ndarray_ext (A B : ndarray) :
  wf A -> wf B -> nrows A = nrows B -> ncols A = ncols B ->
  (forall i j, (i < nrows A)%nat -> (j < ncols A)%nat -> get A i j = get B i j) ->
  A = B.
Proof.
  intros HA HB Hr Hc H.
  rewrite <- (tabulate_get A HA), <- (tabulate_get B HB), <- Hr, <- Hc.
  now apply tabulate_ext.
Qed.

Lemma np_sum_tabulate (r c : nat) (f : nat -> nat -> R) :
  np_sum (tabulate r c f) = sum_upto r (fun i => sum_upto c (f i)).
Proof.
  unfold np_sum, tabulate, sum_upto. simpl.
  induction (seq 0 r) as [|i l IH]; simpl.
  - reflexivity.
  - rewrite Rsum_app. unfold Rsum in *. now rewrite IH.
Qed.

Lemma np_sum_row (c : nat) (f : nat -> nat -> R) :
  np_sum (tabulate 1 c f) = sum_upto c (f 0%nat).
Proof.
  rewrite np_sum_tabulate. unfold sum_upto at 1. simpl. lra.
Qed.

(** ** The activation *)

Lemma sigmoid_denominator_pos (z : R) : 0 < 1 + exp (- z).
Proof. pose proof (exp_pos (- z)). lra. Qed.

Lemma sigmoid_pos (z : R) : 0 < sigmoid z.
Proof.
  unfold sigmoid. apply Rdiv_lt_0_compat; [lra | apply sigmoid_denominator_pos].
Qed.

Lemma sigmoid_lt_1 (z : R) : sigmoid z < 1.
Proof.
  unfold sigmoid. pose proof (exp_pos (- z)) as He.
  apply (Rmult_lt_reg_r (1 + exp (- z))); [lra|].
  unfold Rdiv. rewrite Rmult_assoc, Rinv_l by lra. lra.
Qed.

Lemma sigmoid_zero : sigmoid 0 = 0.5.
Proof. unfold sigmoid. rewrite Ropp_0, exp_0. lra. Qed.

Lemma sigmoid_increasing (x y : R) : x < y -> sigmoid x < sigmoid y.
Proof.
  intros Hxy. unfold sigmoid, Rdiv. rewrite !Rmult_1_l.
  pose proof (exp_pos (- x)). pose proof (exp_pos (- y)).
  apply Rinv_lt_contravar.
  - apply Rmult_lt_0_compat; lra.
  - assert (exp (- y) < exp (- x)) by (apply exp_increasing; lra). lra.
Qed.

Lemma sigmoid_opp (z : R) : sigmoid (- z) = 1 - sigmoid z.
Proof.
  unfold sigmoid. rewrite Ropp_involutive, exp_Ropp.
  pose proof (exp_pos z). field. split; lra.
Qed.

(** C9: in exact arithmetic [sigmoid z = 1 / (1 + exp (- z))] lies strictly
    between 0 and 1 for every real [z], [sigmoid 0] is exactly 0.5, [sigmoid]
    is increasing, and [sigmoid (- z) = 1 - sigmoid z]. *)
Theorem sigmoid_properties :
  (forall z, sigmoid z = 1 / (1 + exp (- z)) /\ 0 < sigmoid z < 1) /\
  sigmoid 0 = 0.5 /\
  (forall x y, x < y -> sigmoid x < sigmoid y) /\
  (forall x y, x <= y -> sigmoid x <= sigmoid y) /\
  (forall z, sigmoid (- z) = 1 - sigmoid z).
Proof.
  repeat split.
  - apply sigmoid_pos.
  - apply sigmoid_lt_1.
  - apply sigmoid_zero.
  - apply sigmoid_increasing.
  - intros x y [Hlt | ->].
    + left. now apply sigmoid_increasing.
    + right. reflexivity.
  - apply sigmoid_opp.
Qed.

Lemma sigmoid_properties_witness : sigmoid 0 < sigmoid 1 /\ sigmoid 0 <= sigmoid 0.
Proof.
  destruct sigmoid_properties as [_ [_ [Hinc [Hmono _]]]].
  split; [apply Hinc | apply Hmono]; lra.
Defined.

(** ** numpy operations on arrays of known shape *)

Lemma nd_map_tabulate (h : R -> R) (r c : nat) (f : nat -> nat -> R) :
  nd_map h (tabulate r c f) = tabulate r c (fun i j => h (f i j)).
Proof.
  unfold nd_map. simpl. apply tabulate_ext. intros i j Hi Hj.
  now rewrite get_tabulate.
Qed.

Lemma transpose_tabulate (r c : nat) (f : nat -> nat -> R) :
  transpose (tabulate r c f) = tabulate c r (fun i j => f j i).
Proof.
  unfold transpose. simpl. apply tabulate_ext. intros i j Hi Hj.
  now rewrite get_tabulate.
Qed.

Lemma nd_map_nd_map (f g : R -> R) (A : ndarray) :
  nd_map f (nd_map g A) = nd_map (fun x => f (g x)) A.
Proof. unfold nd_map at 2. now rewrite nd_map_tabulate. Qed.

(** On an array, [sigmoid] is the scalar function at every entry. *)
Lemma sigmoid_nd_map (z : ndarray) : sigmoid_nd z = nd_map sigmoid z.
Proof. unfold sigmoid_nd. now rewrite !nd_map_nd_map. Qed.

Lemma broadcast_dim_same (n : nat) : broadcast_dim n n = Some n.
Proof. unfold broadcast_dim. now rewrite Nat.eqb_refl. Qed.

Lemma bidx_lt (n i : nat) : (i < n)%nat -> bidx n i = i.
Proof.
  intros Hi. unfold bidx. destruct (Nat.eqb_spec n 1); [lia | reflexivity].
Qed.

(** Between arrays of one shape, broadcasting changes nothing. *)
Lemma nd_zip_same_shape (op : R -> R -> R) (A B : ndarray) :
  nrows A = nrows B -> ncols A = ncols B ->
  nd_zip op A B =
  Ok (tabulate (nrows A) (ncols A) (fun i j => op (get A i j) (get B i j))).
Proof.
  intros Hr Hc. unfold nd_zip. rewrite <- Hr, <- Hc, !broadcast_dim_same.
  f_equal. apply tabulate_ext. intros i j Hi Hj.
  now rewrite !bidx_lt.
Qed.

Lemma nd_zip_tabulate (op : R -> R -> R) (r c : nat) (f g : nat -> nat -> R) :
  nd_zip op (tabulate r c f) (tabulate r c g) =
  Ok (tabulate r c (fun i j => op (f i j) (g i j))).
Proof.
  rewrite nd_zip_same_shape by reflexivity. simpl. f_equal.
  apply tabulate_ext. intros i j Hi Hj. now rewrite !get_tabulate.
Qed.

Lemma np_dot_aligned (A B : ndarray) :
  ncols A = nrows B ->
  np_dot A B =
  Ok (tabulate (nrows A) (ncols B)
        (fun i j => sum_upto (ncols A) (fun k => get A i k * get B k j))).
Proof. intros H. unfold np_dot. now rewrite H, Nat.eqb_refl. Qed.

Lemma np_dot_not_aligned (A B : ndarray) :
  ncols A <> nrows B -> np_dot A B = Err ValueError_shapes_not_aligned.
Proof.
  intros H. unfold np_dot. now destruct (Nat.eqb_spec (ncols A) (nrows B)).
Qed.

Lemma py_div_pos (x : R) (m : nat) :
  (1 <= m)%nat -> py_div x m = Ok (x / INR m).
Proof. destruct m; [lia | reflexivity]. Qed.

Lemma shape_eqb_refl (s : nat * nat) : shape_eqb s s = true.
Proof. unfold shape_eqb. now rewrite !Nat.eqb_refl. Qed.

(** ** Zero initialisation *)

Lemma initialize_with_zeros_nonneg (dim : Z) :
  (0 <= dim)%Z ->
  initialize_with_zeros dim = Ok (tabulate (Z.to_nat dim) 1 (fun _ _ => 0), 0).
Proof.
  intros H. unfold initialize_with_zeros, np_zeros.
  destruct (Z.ltb_spec dim 0); [lia|]. simpl.
  unfold shape. simpl. now rewrite shape_eqb_refl.
Qed.

Lemma initialize_with_zeros_negative (dim : Z) :
  (dim < 0)%Z -> initialize_with_zeros dim = Err ValueError_negative_dimensions.
Proof.
  intros H. unfold initialize_with_zeros, np_zeros.
  destruct (Z.ltb_spec dim 0); [reflexivity | lia].
Qed.

(** C6, as the code has it: [initialize_with_zeros dim] raises when
    [dim < 0]; for every [dim >= 0], zero included, it returns [w] of shape
    [(dim, 1)] with every entry 0 and [b = 0]. *)
Theorem initialize_with_zeros_spec (dim : Z) :
  ((dim < 0)%Z ->
   initialize_with_zeros dim = Err ValueError_negative_dimensions) /\
  ((0 <= dim)%Z ->
   exists w, initialize_with_zeros dim = Ok (w, 0) /\
             wf w /\ shape w = (Z.to_nat dim, 1%nat) /\
             forall i j, (i < Z.to_nat dim)%nat -> (j < 1)%nat -> get w i j = 0).
Proof.
  split.
  - apply initialize_with_zeros_negative.
  - intros H. eexists. split; [now apply initialize_with_zeros_nonneg|].
    split; [apply wf_tabulate|]. split; [reflexivity|].
    intros i j Hi Hj. now rewrite get_tabulate.
Qed.

Lemma initialize_with_zeros_spec_witness :
  initialize_with_zeros (-1) = Err ValueError_negative_dimensions /\
  exists w, initialize_with_zeros 2 = Ok (w, 0) /\
            wf w /\ shape w = (2%nat, 1%nat) /\
            forall i j, (i < 2)%nat -> (j < 1)%nat -> get w i j = 0.
Proof.
  split.
  - apply (proj1 (initialize_with_zeros_spec (-1))). lia.
  - apply (proj2 (initialize_with_zeros_spec 2)). lia.
Defined.

(** C6 as stated fails at [dim = 0]: no exception is raised, the call
    returns an array of shape [(0, 1)]. *)
Lemma initialize_with_zeros_zero_dim :
  (0 <= 0)%Z /\
  ~ ((0 <= 0)%Z -> exists e, initialize_with_zeros 0 = Err e).
Proof.
  split; [lia|]. intros H. destruct (H ltac:(lia)) as [e He].
  rewrite initialize_with_zeros_nonneg in He by lia. discriminate.
Qed.

(** ** Shape violations in propagate *)

(** C7: when the row count of [w] differs from the row count of [X],
    [propagate] raises numpy's shape error at [np.dot(w.T, X)] and computes
    nothing. *)
Theorem propagate_shape_mismatch (w : ndarray) (b : R) (X Y : ndarray) :
  nrows w <> nrows X ->
  propagate w b X Y = Err ValueError_shapes_not_aligned.
Proof.
  intros H. unfold propagate.
  rewrite np_dot_not_aligned; [reflexivity | exact H].
Qed.

Lemma propagate_shape_mismatch_witness :
  propagate (tabulate 3 1 (fun _ _ => 0)) 0
            (tabulate 2 5 (fun _ _ => 0)) (tabulate 1 5 (fun _ _ => 0))
  = Err ValueError_shapes_not_aligned.
Proof.
  apply propagate_shape_mismatch. simpl. lia.
Defined.

(** ** The forward and backward pass *)

(** The activations [propagate] computes, as a row. *)
Lemma forward_activation (w : ndarray) (b : R) (X : ndarray) :
  nrows w = nrows X -> ncols w = 1%nat ->
  exists D, np_dot (transpose w) X = Ok D /\
    sigmoid_nd (nd_map (fun x => x + b) D) =
    tabulate 1 (ncols X) (fun _ j => activation w b X j).
Proof.
  intros Hr Hc. eexists. split.
  - apply np_dot_aligned. simpl. exact Hr.
  - rewrite sigmoid_nd_map. unfold transpose. simpl. rewrite Hc.
    rewrite !nd_map_tabulate. apply tabulate_ext. intros i j Hi Hj.
    unfold activation. do 2 f_equal. rewrite <- Hr.
    apply sum_upto_ext. intros k Hk.
    rewrite get_tabulate by lia. now replace i with 0%nat by lia.
Qed.

Lemma nd_zip_row (op : R -> R -> R) (Y : ndarray) (c : nat) (g : nat -> R) :
  nrows Y = 1%nat -> ncols Y = c ->
  nd_zip op Y (tabulate 1 c (fun _ j => g j)) =
  Ok (tabulate 1 c (fun _ j => op (get Y 0 j) (g j))).
Proof.
  intros Hr Hc. rewrite nd_zip_same_shape by (simpl; congruence).
  rewrite Hr, Hc. f_equal. apply tabulate_ext. intros i j Hi Hj.
  rewrite get_tabulate by lia. now replace i with 0%nat by lia.
Qed.

Lemma nd_zip_row_l (op : R -> R -> R) (Y : ndarray) (c : nat) (g : nat -> R) :
  nrows Y = 1%nat -> ncols Y = c ->
  nd_zip op (tabulate 1 c (fun _ j => g j)) Y =
  Ok (tabulate 1 c (fun _ j => op (g j) (get Y 0 j))).
Proof.
  intros Hr Hc. rewrite nd_zip_same_shape by (simpl; congruence).
  simpl. f_equal. apply tabulate_ext. intros i j Hi Hj.
  rewrite get_tabulate by lia. now replace i with 0%nat by lia.
Qed.

Lemma nd_map_row (h : R -> R) (Y : ndarray) :
  nrows Y = 1%nat ->
  nd_map h Y = tabulate 1 (ncols Y) (fun _ j => h (get Y 0 j)).
Proof.
  intros Hr. unfold nd_map. rewrite Hr. apply tabulate_ext.
  intros i j Hi Hj. now replace i with 0%nat by lia.
Qed.

(** On well-shaped inputs with at least one example, [propagate] returns
    the closed forms. *)
Lemma propagate_well_shaped (w : ndarray) (b : R) (X Y : ndarray) :
  well_shaped w X Y -> (1 <= ncols X)%nat ->
  propagate w b X Y =
  Ok ({| dw := spec_dw w b X Y; db := spec_db w b X Y |}, spec_cost w b X Y).
Proof.
  intros (Hwr & Hwc & Hyr & Hyc) HN. unfold propagate.
  destruct (forward_activation w b X Hwr Hwc) as [D [-> HA]].
  cbn [bind]. rewrite HA. clear HA D.
  rewrite !py_div_pos by exact HN. cbn [bind].
  rewrite (nd_map_tabulate ln), (nd_map_tabulate (fun a => 1 - a)).
  rewrite (nd_map_tabulate ln).
  rewrite (nd_zip_row Rmult Y (ncols X) (fun j => ln (activation w b X j)))
    by assumption.
  cbn [bind].
  rewrite (nd_map_row (fun y => 1 - y) Y Hyr), Hyc.
  rewrite nd_zip_tabulate. cbn [bind].
  rewrite nd_zip_tabulate. cbn [bind].
  rewrite (nd_zip_row_l Rminus Y (ncols X) (activation w b X)) by assumption.
  cbn [bind]. rewrite transpose_tabulate.
  rewrite np_dot_aligned by reflexivity. cbn [bind].
  rewrite nd_map_tabulate. cbn [nrows ncols tabulate].
  assert (Hdw : tabulate (nrows X) 1
            (fun i j => 1 / INR (ncols X) *
               sum_upto (ncols X)
                 (fun k => get X i k *
                    get (tabulate (ncols X) 1
                           (fun i0 j0 => activation w b X i0 - get Y 0 i0)) k j))
          = spec_dw w b X Y).
  { unfold spec_dw. apply tabulate_ext. intros i j Hi Hj. f_equal.
    apply sum_upto_ext. intros k Hk. now rewrite get_tabulate by lia. }
  rewrite Hdw. unfold shape. rewrite Hwr, Hwc.
  unfold spec_dw at 1 2. cbn [nrows ncols tabulate].
  rewrite shape_eqb_refl. cbn [assert bind].
  rewrite !np_sum_row. do 2 f_equal.
  unfold spec_cost. lra.
Qed.

(** C3: for [w] of shape [(F, 1)], [X] of shape [(F, N)] with [N >= 1] and
    [Y] of shape [(1, N)], [propagate] returns [dw = (1/N) X (A - Y)^T] of
    shape [(F, 1)], the scalar [db = (1/N) sum (A - Y)] and the scalar
    [cost = -(1/N) sum (Y log A + (1 - Y) log (1 - A))], where
    [A = sigmoid (w^T X + b)] entry by entry. *)
Theorem propagate_spec (w : ndarray) (b : R) (X Y : ndarray) (F N : nat) :
  shape w = (F, 1%nat) -> shape X = (F, N) -> shape Y = (1%nat, N) ->
  (1 <= N)%nat ->
  let A := fun j => sigmoid (sum_upto F (fun k => get w k 0 * get X k j) + b) in
  exists g cost,
    propagate w b X Y = Ok (g, cost) /\
    shape (dw g) = (F, 1%nat) /\ wf (dw g) /\
    (forall i, (i < F)%nat ->
       get (dw g) i 0 =
       1 / INR N * sum_upto N (fun j => get X i j * (A j - get Y 0 j))) /\
    db g = 1 / INR N * sum_upto N (fun j => A j - get Y 0 j) /\
    cost = - (1 / INR N) *
           sum_upto N (fun j => get Y 0 j * ln (A j) +
                                (1 - get Y 0 j) * ln (1 - A j)).
Proof.
  intros Hw HX HY HN A. unfold shape in *.
  injection Hw as Hwr Hwc. injection HX as HXr HXc. injection HY as HYr HYc.
  exists {| dw := spec_dw w b X Y; db := spec_db w b X Y |}, (spec_cost w b X Y).
  split.
  - apply propagate_well_shaped; [|lia].
    unfold well_shaped. repeat split; congruence.
  - cbn [dw db]. unfold spec_dw, spec_db, spec_cost, activation.
    rewrite HXr, HXc. fold A. cbn [nrows ncols tabulate].
    split; [reflexivity|]. split; [apply wf_tabulate|].
    split; [|split; reflexivity].
    intros i Hi. now rewrite get_tabulate by lia.
Qed.

Lemma propagate_spec_witness :
  let w := tabulate 2 1 (fun _ _ => 0) in
  let X := mk_ndarray 2 4 [[0; 0; 1; 1]; [0; 1; 0; 1]] in
  let Y := mk_ndarray 1 4 [[0; 0; 0; 1]] in
  exists g cost,
    propagate w 0 X Y = Ok (g, cost) /\ shape (dw g) = (2%nat, 1%nat) /\
    db g = 1 / INR 4 *
           sum_upto 4 (fun j =>
             sigmoid (sum_upto 2 (fun k => get w k 0 * get X k j) + 0) -
             get Y 0 j).
Proof.
  intros w X Y.
  assert (HN : (1 <= 4)%nat) by lia.
  pose proof (propagate_spec w 0 X Y 2 4 eq_refl eq_refl eq_refl HN) as H.
  cbv zeta in H. destruct H as (g & cost & H1 & H2 & _ & _ & H3 & _).
  exists g, cost. repeat split; assumption.
Defined.

(** ** The optimizer loop *)

(** The rule for a [for] loop over consecutive indices whose body never
    raises under the invariant. *)
Lemma for_each_seq_invariant (St : Type) (body : nat -> St -> result St)
  (Inv : nat -> St -> Prop) (n : nat) :
  (forall i st, (i < n)%nat -> Inv i st ->
                exists st', body i st = Ok st' /\ Inv (1 + i)%nat st') ->
  forall k a st, (a + k <= n)%nat -> Inv a st ->
  exists st', for_each body (seq a k) st = Ok st' /\ Inv (a + k)%nat st'.
Proof.
  intros Hstep. induction k as [|k IH]; intros a st Hle Hinv.
  - exists st. rewrite Nat.add_0_r. split; [reflexivity | exact Hinv].
  - destruct (Hstep a st ltac:(lia) Hinv) as (st1 & Hbody & Hinv1).
    destruct (IH (1 + a)%nat st1 ltac:(lia) Hinv1) as (st2 & Hloop & Hinv2).
    exists st2. cbn [seq for_each]. rewrite Hbody. cbn [bind].
    split; [exact Hloop|].
    now replace (a + S k)%nat with (1 + a + k)%nat by lia.
Qed.

(** The update [w - learning_rate * dw] on well-shaped data. *)
Lemma update_well_shaped (w : ndarray) (b lr : R) (X Y : ndarray) :
  well_shaped w X Y ->
  exists w',
    nd_zip Rminus w (nd_map (fun x => lr * x) (spec_dw w b X Y)) = Ok w' /\
    w' = tabulate (nrows w) (ncols w)
           (fun i j => get w i j - lr * get (spec_dw w b X Y) i j) /\
    well_shaped w' X Y.
Proof.
  intros (Hwr & Hwc & Hyr & Hyc). eexists. split; [|split; [reflexivity|]].
  - rewrite nd_zip_same_shape by (simpl; congruence).
    f_equal. apply tabulate_ext. intros i j Hi Hj.
    unfold nd_map. now rewrite get_tabulate by (simpl; congruence).
  - unfold well_shaped. simpl. auto.
Qed.

Lemma gd_step_well_shaped (X Y : ndarray) (lr : R) (p : params_t) :
  well_shaped (p_w p) X Y -> (1 <= ncols X)%nat ->
  exists w',
    nd_zip Rminus (p_w p)
      (nd_map (fun x => lr * x) (spec_dw (p_w p) (p_b p) X Y)) = Ok w' /\
    well_shaped w' X Y /\
    gd_step X Y lr p =
    Ok {| p_w := w'; p_b := p_b p - lr * spec_db (p_w p) (p_b p) X Y |}.
Proof.
  intros Hws HN.
  destruct (update_well_shaped (p_w p) (p_b p) lr X Y Hws) as (w' & Hw' & _ & Hws').
  exists w'. split; [exact Hw'|]. split; [exact Hws'|].
  unfold gd_step. rewrite propagate_well_shaped by assumption.
  cbn [bind dw db]. rewrite Hw'. reflexivity.
Qed.

Lemma filter_recorded_S (i : nat) :
  filter recorded (seq 0 (S i)) =
  filter recorded (seq 0 i) ++ (if recorded i then [i] else []).
Proof. rewrite seq_S, filter_app. simpl. now destruct (recorded i). Qed.

(** One pass through the loop body keeps the invariant. *)
Lemma optimize_body_invariant (X Y : ndarray) (lr : R) (print_cost : bool)
  (p0 : params_t) (i : nat) (st : loop_state) :
  (1 <= ncols X)%nat ->
  optimize_invariant X Y lr p0 i st ->
  exists st', optimize_body X Y lr print_cost i st = Ok st' /\
              optimize_invariant X Y lr p0 (1 + i) st'.
Proof.
  intros HN (Hws & Hiter & Hits & Hcosts & _).
  destruct (gd_step_well_shaped X Y lr {| p_w := ls_w st; p_b := ls_b st |} Hws HN)
    as (w' & Hw' & Hws' & Hstep).
  cbn [p_w p_b] in *.
  unfold optimize_body. rewrite propagate_well_shaped by assumption.
  cbn [bind dw db]. rewrite Hw'. cbn [bind].
  eexists. split; [reflexivity|].
  unfold optimize_invariant. cbn [ls_w ls_b ls_dw ls_db ls_costs ls_iterations].
  split; [exact Hws'|]. split.
  { cbn [gd_iter Nat.add]. rewrite Hiter. cbn [bind]. exact Hstep. }
  split.
  { rewrite filter_recorded_S, Hits. unfold recorded.
    now destruct (i mod 100 =? 0)%nat; [|rewrite app_nil_r]. }
  split.
  { destruct (i mod 100 =? 0)%nat; [|exact Hcosts].
    apply Forall2_app; [exact Hcosts|].
    constructor; [|constructor].
    exists {| p_w := ls_w st; p_b := ls_b st |}. eexists. split; [exact Hiter|].
    cbn [p_w p_b]. now apply propagate_well_shaped. }
  intros _. split; discriminate.
Qed.

(** From a well-shaped start and for at least one iteration, [optimize]
    returns: its parameters are those of [num_iterations] gradient steps in
    sequence, and its two histories are those of the invariant. *)
Lemma optimize_total (w : ndarray) (b : R) (X Y : ndarray) (n : Z) (lr : R)
  (print_cost : bool) :
  well_shaped w X Y -> (1 <= ncols X)%nat -> (1 <= n)%Z ->
  let p0 := {| p_w := w; p_b := b |} in
  exists r,
    optimize w b X Y n lr print_cost = Ok r /\
    gd_iter X Y lr (Z.to_nat n) p0 = Ok (params r) /\
    well_shaped (p_w (params r)) X Y /\
    iterations r = filter recorded (seq 0 (Z.to_nat n)) /\
    Forall2 (cost_at_start X Y lr p0) (iterations r) (costs r).
Proof.
  intros Hws HN Hn p0.
  set (st0 := {| ls_w := w; ls_b := b; ls_dw := None; ls_db := None;
                 ls_costs := []; ls_iterations := [] |}).
  assert (Hinv0 : optimize_invariant X Y lr p0 0 st0).
  { unfold optimize_invariant. simpl. repeat split; try assumption;
      try constructor; try apply Hws; lia. }
  destruct (for_each_seq_invariant _ (optimize_body X Y lr print_cost)
              (optimize_invariant X Y lr p0) (Z.to_nat n)
              (fun i st _ => optimize_body_invariant X Y lr print_cost p0 i st HN)
              (Z.to_nat n) 0%nat st0 (Nat.le_refl _) Hinv0)
    as (st & Hloop & Hws' & Hiter & Hits & Hcosts & Hbound).
  cbn [Nat.add] in *.
  destruct Hbound as [Hdw Hdb]; [lia|].
  destruct (ls_dw st) as [dw1|] eqn:Edw; [|congruence].
  destruct (ls_db st) as [db1|] eqn:Edb; [|congruence].
  eexists. split.
  - unfold optimize, range. fold st0. rewrite Hloop. cbn [bind].
    rewrite Edw, Edb. cbn [read_local bind]. reflexivity.
  - cbn [params iterations costs p_w]. auto.
Qed.

(** [optimize] with no iteration to run: the dictionary [grads] is built from
    [dw] and [db], which only the loop body binds. *)
Lemma optimize_no_iteration (w : ndarray) (b : R) (X Y : ndarray) (n : Z)
  (lr : R) (print_cost : bool) :
  (n <= 0)%Z -> optimize w b X Y n lr print_cost = Err UnboundLocalError.
Proof.
  intros Hn. unfold optimize, range.
  replace (Z.to_nat n) with 0%nat by lia. reflexivity.
Qed.

(** C2, at the input where the code departs from it: with
    [num_iterations = 0] the loop body never runs and [optimize] raises
    instead of returning its inputs unchanged. *)
Theorem optimize_zero_iterations_raises (w : ndarray) (b : R) (X Y : ndarray)
  (lr : R) (print_cost : bool) :
  optimize w b X Y 0 lr print_cost = Err UnboundLocalError.
Proof. apply optimize_no_iteration. lia. Qed.

(** For one iteration or more on well-shaped data, the loop runs exactly
    [num_iterations] gradient steps in sequence and returns what the last one
    left. *)
Lemma optimize_runs_every_iteration (w : ndarray) (b : R) (X Y : ndarray)
  (n : Z) (lr : R) (print_cost : bool) :
  well_shaped w X Y -> (1 <= ncols X)%nat -> (1 <= n)%Z ->
  exists r, optimize w b X Y n lr print_cost = Ok r /\
            gd_iter X Y lr (Z.to_nat n) {| p_w := w; p_b := b |} = Ok (params r).
Proof.
  intros Hws HN Hn.
  destruct (optimize_total w b X Y n lr print_cost Hws HN Hn)
    as (r & Hr & Hiter & _).
  exists r. split; assumption.
Qed.

(** ** The cost history *)

Lemma seq_strongly_sorted (k a : nat) : StronglySorted lt (seq a k).
Proof.
  revert a. induction k as [|k IH]; intros a; simpl; constructor.
  - apply IH.
  - apply Forall_forall. intros x Hx. apply in_seq in Hx. lia.
Qed.

Lemma filter_strongly_sorted (T : Type) (lt_T : T -> T -> Prop)
  (f : T -> bool) (l : list T) :
  StronglySorted lt_T l -> StronglySorted lt_T (filter f l).
Proof.
  induction 1 as [|x l Hl IH Hx]; simpl.
  - constructor.
  - destruct (f x); [|exact IH]. constructor; [exact IH|].
    rewrite Forall_forall in *. intros y Hy.
    apply filter_In in Hy. apply Hx, Hy.
Qed.

(** C5: for [num_iterations >= 1] the history [optimize] returns holds
    exactly the iterations [i < num_iterations] with [i mod 100 = 0], in
    strictly increasing order, and the cost at each position is the one
    [propagate] computed from the parameters at the start of that iteration. *)
Theorem optimize_cost_history (w : ndarray) (b : R) (X Y : ndarray) (n : Z)
  (lr : R) (print_cost : bool) :
  well_shaped w X Y -> (1 <= ncols X)%nat -> (1 <= n)%Z ->
  exists r,
    optimize w b X Y n lr print_cost = Ok r /\
    (forall i, In i (iterations r) <->
               (Z.of_nat i < n)%Z /\ (i mod 100 = 0)%nat) /\
    StronglySorted lt (iterations r) /\
    Forall2 (cost_at_start X Y lr {| p_w := w; p_b := b |})
            (iterations r) (costs r).
Proof.
  intros Hws HN Hn.
  destruct (optimize_total w b X Y n lr print_cost Hws HN Hn)
    as (r & Hr & _ & _ & Hits & Hcosts).
  exists r. split; [exact Hr|]. rewrite Hits. split; [|split].
  - intros i. rewrite filter_In, in_seq. unfold recorded.
    rewrite Nat.eqb_eq. split; intros [H1 H2]; (split; [lia | exact H2]).
  - apply filter_strongly_sorted, seq_strongly_sorted.
  - rewrite <- Hits. exact Hcosts.
Qed.

Lemma optimize_cost_history_witness :
  let w := tabulate 2 1 (fun _ _ => 0) in
  let X := mk_ndarray 2 4 [[0; 0; 1; 1]; [0; 1; 0; 1]] in
  let Y := mk_ndarray 1 4 [[0; 0; 0; 1]] in
  exists r,
    optimize w 0 X Y 250 0.1 false = Ok r /\
    (forall i, In i (iterations r) <->
               (Z.of_nat i < 250)%Z /\ (i mod 100 = 0)%nat) /\
    StronglySorted lt (iterations r) /\
    Forall2 (cost_at_start X Y 0.1 {| p_w := w; p_b := 0 |})
            (iterations r) (costs r).
Proof.
  intros w X Y. apply optimize_cost_history.
  - unfold well_shaped. simpl. repeat split; reflexivity.
  - simpl. lia.
  - lia.
Defined.

(** ** A zero learning rate *)

Lemma gd_step_zero_learning_rate (X Y : ndarray) (p : params_t) :
  wf (p_w p) -> well_shaped (p_w p) X Y -> (1 <= ncols X)%nat ->
  gd_step X Y 0 p = Ok p.
Proof.
  intros Hwf Hws HN.
  destruct (gd_step_well_shaped X Y 0 p Hws HN) as (w' & Hw' & _ & ->).
  destruct (update_well_shaped (p_w p) (p_b p) 0 X Y Hws) as (w'' & Hw'' & Heq & _).
  rewrite Hw'' in Hw'. injection Hw' as <-. subst w''.
  destruct p as [w b]. cbn [p_w p_b] in *. do 2 f_equal.
  - rewrite <- (tabulate_get w Hwf) at 3. apply tabulate_ext.
    intros i j _ _. lra.
  - lra.
Qed.

Lemma gd_iter_zero_learning_rate (X Y : ndarray) (p : params_t) (n : nat) :
  wf (p_w p) -> well_shaped (p_w p) X Y -> (1 <= ncols X)%nat ->
  gd_iter X Y 0 n p = Ok p.
Proof.
  intros Hwf Hws HN. induction n as [|n IH]; cbn [gd_iter].
  - reflexivity.
  - rewrite IH. cbn [bind]. now apply gd_step_zero_learning_rate.
Qed.

(** C8, with the input where the code departs from it: [optimize] does not
    reject [learning_rate = 0].  On well-shaped data and for one iteration or
    more it runs every iteration and returns [w] and [b] equal to the values
    passed in, as the claim says.  With no iteration to run it neither
    rejects the learning rate nor returns the parameters: it raises
    [UnboundLocalError], by the defect of C2. *)
Theorem optimize_zero_learning_rate (w : ndarray) (b : R) (X Y : ndarray)
  (n : Z) (print_cost : bool) :
  wf w -> well_shaped w X Y -> (1 <= ncols X)%nat ->
  ((1 <= n)%Z ->
   exists r, optimize w b X Y n 0 print_cost = Ok r /\
             gd_iter X Y 0 (Z.to_nat n) {| p_w := w; p_b := b |} = Ok (params r) /\
             p_w (params r) = w /\ p_b (params r) = b) /\
  ((n <= 0)%Z -> optimize w b X Y n 0 print_cost = Err UnboundLocalError).
Proof.
  intros Hwf Hws HN. split; [|apply optimize_no_iteration].
  intros Hn.
  destruct (optimize_total w b X Y n 0 print_cost Hws HN Hn)
    as (r & Hr & Hiter & _).
  pose proof Hiter as Hiter'.
  rewrite (gd_iter_zero_learning_rate X Y {| p_w := w; p_b := b |}) in Hiter'
    by assumption.
  injection Hiter' as Hp. exists r.
  split; [exact Hr|]. split; [exact Hiter|]. now rewrite <- Hp.
Qed.

Lemma optimize_zero_learning_rate_witness :
  let w := mk_ndarray 2 1 [[1]; [2]] in
  let X := mk_ndarray 2 4 [[0; 0; 1; 1]; [0; 1; 0; 1]] in
  let Y := mk_ndarray 1 4 [[0; 0; 0; 1]] in
  (exists r, optimize w 3 X Y 5 0 false = Ok r /\
             p_w (params r) = w /\ p_b (params r) = 3) /\
  optimize w 3 X Y 0 0 false = Err UnboundLocalError.
Proof.
  intros w X Y.
  assert (Hwf : wf w) by (split; simpl; [reflexivity | repeat constructor]).
  assert (Hws : well_shaped w X Y)
    by (unfold well_shaped; simpl; repeat split; reflexivity).
  assert (HN : (1 <= ncols X)%nat) by (simpl; lia).
  split.
  - destruct (proj1 (optimize_zero_learning_rate w 3 X Y 5 false Hwf Hws HN))
      as (r & Hr & _ & Hw & Hb); [lia|].
    exists r. auto.
  - apply (proj2 (optimize_zero_learning_rate w 3 X Y 0 false Hwf Hws HN)). lia.
Defined.

(** ** The predictor *)

Lemma length_list_set (T : Type) (l : list T) (n : nat) (x : T) :
  length (list_set l n x) = length l.
Proof.
  revert n. induction l as [|h t IH]; intros [|n]; simpl; auto.
Qed.

Lemma nth_list_set (T : Type) (l : list T) (n m : nat) (x d : T) :
  nth m (list_set l n x) d =
  if ((m =? n) && (n <? length l))%nat then x else nth m l d.
Proof.
  revert n m. induction l as [|h t IH]; intros n m.
  - simpl. rewrite andb_false_r. reflexivity.
  - destruct n as [|n], m as [|m]; simpl; try reflexivity.
    rewrite IH. reflexivity.
Qed.

(** Storing one entry of a table. *)
Lemma setitem_tabulate (r c : nat) (f : nat -> nat -> R) (i j : nat) (x : R) :
  (i < r)%nat -> (j < c)%nat ->
  setitem (tabulate r c f) i j x =
  Ok (tabulate r c
        (fun i' j' => if ((i' =? i) && (j' =? j))%nat then x else f i' j')).
Proof.
  intros Hi Hj. unfold setitem. cbn [nrows ncols tabulate].
  destruct (Nat.ltb_spec i r); [|lia]. destruct (Nat.ltb_spec j c); [|lia].
  cbn [andb]. f_equal.
  set (l := elems (tabulate r c f)).
  assert (Hl : length l = r) by (unfold l; simpl; now rewrite length_map, length_seq).
  assert (Hrow : forall k, (k < r)%nat -> length (nth k l []) = c).
  { intros k Hk. pose proof (wf_tabulate r c f) as [_ Hall].
    rewrite Forall_forall in Hall. apply Hall. apply nth_In. fold l. lia. }
  apply ndarray_ext; cbn [nrows ncols]; try reflexivity.
  - split; cbn [elems nrows ncols].
    + now rewrite length_list_set.
    + apply Forall_forall. intros row Hrow'.
      apply (In_nth _ _ []) in Hrow'. destruct Hrow' as (k & Hk & <-).
      rewrite length_list_set in Hk. rewrite nth_list_set.
      destruct ((k =? i) && (i <? length l))%nat.
      * rewrite length_list_set. apply Hrow. lia.
      * apply Hrow. lia.
  - apply wf_tabulate.
  - intros i' j' Hi' Hj'.
    etransitivity; [|symmetry; apply get_tabulate; assumption].
    unfold get at 1. cbn [elems]. rewrite nth_list_set, Hl.
    destruct (Nat.ltb_spec i r); [|lia]. rewrite andb_true_r.
    destruct (Nat.eqb_spec i' i) as [->|Hne]; cbn [andb].
    + rewrite nth_list_set, Hrow by lia.
      destruct (Nat.ltb_spec j c); [|lia]. rewrite andb_true_r.
      destruct (Nat.eqb_spec j' j); [reflexivity|].
      change (nth j' (nth i l []) 0) with (get (tabulate r c f) i j').
      now apply get_tabulate.
    + change (nth j' (nth i' l []) 0) with (get (tabulate r c f) i' j').
      now apply get_tabulate.
Qed.

Lemma np_zeros_row (m : nat) :
  np_zeros 1 (Z.of_nat m) = Ok (tabulate 1 m (fun _ _ => 0)).
Proof.
  unfold np_zeros. destruct (Z.ltb_spec (Z.of_nat m) 0); [lia|].
  cbn [Z.ltb Z.compare orb]. now rewrite Nat2Z.id.
Qed.

Lemma predict_body_tabulate (m : nat) (act : nat -> R) (f : nat -> nat -> R)
  (i : nat) :
  (i < m)%nat ->
  predict_body (tabulate 1 m (fun _ j => act j)) i (tabulate 1 m f) =
  Ok (tabulate 1 m
        (fun i' j' => if ((i' =? 0) && (j' =? i))%nat then threshold (act i)
                      else f i' j')).
Proof.
  intros Hi. unfold predict_body, getitem. cbn [nrows ncols tabulate].
  destruct (Nat.ltb_spec i m); [|lia]. cbn [Nat.ltb Nat.leb andb bind].
  rewrite get_tabulate by lia. unfold threshold.
  destruct (Rgt_dec (act i) 0.5); apply setitem_tabulate; lia.
Qed.

(** The thresholding loop fills the row from left to right. *)
Lemma predict_loop (m : nat) (act : nat -> R) :
  for_each (predict_body (tabulate 1 m (fun _ j => act j))) (seq 0 m)
           (tabulate 1 m (fun _ _ => 0)) =
  Ok (tabulate 1 m (fun _ j => threshold (act j))).
Proof.
  pose (Inv := fun (i : nat) (Yp : ndarray) =>
    Yp = tabulate 1 m (fun _ j => if (j <? i)%nat then threshold (act j) else 0)).
  destruct (for_each_seq_invariant _
              (predict_body (tabulate 1 m (fun _ j => act j))) Inv m) with
    (k := m) (a := 0%nat) (st := tabulate 1 m (fun _ _ => 0))
    as (Yp & Hloop & HYp).
  - intros i Yp Hi ->. eexists. split.
    + now apply predict_body_tabulate.
    + unfold Inv. apply tabulate_ext. intros i' j' Hi' Hj'.
      replace i' with 0%nat by lia. cbn [Nat.eqb andb].
      destruct (Nat.eqb_spec j' i) as [->|Hne].
      * destruct (Nat.ltb_spec i (1 + i)); [reflexivity | lia].
      * destruct (Nat.ltb_spec j' i), (Nat.ltb_spec j' (1 + i));
          try reflexivity; lia.
  - lia.
  - unfold Inv. apply tabulate_ext. intros i j _ _. reflexivity.
  - rewrite Hloop. f_equal. rewrite HYp. apply tabulate_ext.
    intros i j _ Hj. destruct (Nat.ltb_spec j (0 + m)); [reflexivity | lia].
Qed.

Lemma reshape_column (w : ndarray) (F : nat) :
  size w = F ->
  reshape w F 1 =
  Ok (tabulate F 1 (fun i j => nth (i * 1 + j) (concat (elems w)) 0)).
Proof.
  intros H. unfold reshape. now rewrite H, Nat.mul_1_r, Nat.eqb_refl.
Qed.

Lemma nth_concat_singletons (l : list (list R)) (i : nat) :
  Forall (fun row => length row = 1%nat) l ->
  nth i (concat l) 0 = nth 0 (nth i l []) 0.
Proof.
  intros H. revert i. induction H as [|row l Hrow Hl IH]; intros i.
  - destruct i; reflexivity.
  - destruct row as [|x [|y row]]; try discriminate.
    destruct i as [|i]; simpl; [reflexivity | apply IH].
Qed.

(** Reshaping a column vector to its own shape returns it. *)
Lemma reshape_column_id (w : ndarray) :
  wf w -> ncols w = 1%nat -> reshape w (nrows w) 1 = Ok w.
Proof.
  intros Hwf Hc. rewrite reshape_column by (unfold size; lia). f_equal.
  etransitivity; [|apply (tabulate_get w Hwf)]. rewrite Hc.
  apply tabulate_ext. intros i j Hi Hj. replace j with 0%nat by lia.
  rewrite Nat.mul_1_r, Nat.add_0_r. unfold get.
  apply nth_concat_singletons. destruct Hwf as [_ Hrows]. now rewrite <- Hc.
Qed.

(** On a weight array with as many entries as [X] has rows, [predict]
    returns the thresholded activations of the reshaped weights. *)
Lemma predict_total (w : ndarray) (b : R) (X : ndarray) :
  size w = nrows X ->
  exists W,
    reshape w (nrows X) 1 = Ok W /\ shape W = (nrows X, 1%nat) /\
    predict w b X =
    Ok (tabulate 1 (ncols X) (fun _ j => threshold (activation W b X j))).
Proof.
  intros Hsize. eexists. split; [now apply reshape_column|].
  split; [reflexivity|].
  unfold predict. rewrite np_zeros_row. cbn [bind].
  rewrite reshape_column by exact Hsize. cbn [bind].
  set (W := tabulate (nrows X) 1 _).
  destruct (forward_activation W b X eq_refl eq_refl) as (D & HD & HA).
  rewrite HD. cbn [bind]. rewrite HA.
  cbn [bind ncols tabulate]. rewrite predict_loop. cbn [bind].
  unfold shape. cbn [nrows ncols tabulate]. rewrite shape_eqb_refl.
  reflexivity.
Qed.




(** ** The training orchestrator *)

(** The percentage [model] prints is [100 * (1 - mean |prediction - label|)]. *)
Lemma accuracy_formula (P Y : ndarray) (a : R) :
  accuracy P Y = Ok a ->
  exists D, nd_zip Rminus P Y = Ok D /\
            a = 100 * (1 - np_mean (nd_map Rabs D)).
Proof.
  unfold accuracy. destruct (nd_zip Rminus P Y) as [D|e]; cbn [bind];
    [|discriminate].
  intros H. injection H as <-. exists D. split; [reflexivity | lra].
Qed.

(** No input makes [model] return: every path through it ends in an
    exception. *)
Lemma model_never_returns (X_train Y_train X_test Y_test : ndarray) (n : Z)
  (lr : R) (print_cost : bool) :
  exists e, model X_train Y_train X_test Y_test n lr print_cost = Err e.
Proof.
  unfold model.
  destruct (initialize_with_zeros _) as [[w b]|e]; cbn [bind]; eauto.
  destruct (optimize _ _ _ _ _ _ _) as [r|e]; cbn [bind]; eauto.
  cbn [optimize_tuple unpack3 bind]. eauto.
Qed.

(** C1, at the inputs it is stated for: on every valid training
    configuration [model] initialises the parameters and runs the optimizer,
    then raises when it unpacks the four values [optimize] returns into three
    names; it returns no trained-model record. *)
Theorem model_raises_on_valid_configuration
  (X_train Y_train X_test Y_test : ndarray) (n : Z) (lr : R)
  (print_cost : bool) :
  (1 <= nrows X_train)%nat -> (1 <= ncols X_train)%nat ->
  shape Y_train = (1%nat, ncols X_train) ->
  nrows X_test = nrows X_train ->
  shape Y_test = (1%nat, ncols X_test) ->
  (1 <= n)%Z -> 0 < lr ->
  (exists w r,
     initialize_with_zeros (Z.of_nat (nrows X_train)) = Ok (w, 0) /\
     optimize w 0 X_train Y_train n lr print_cost = Ok r /\
     length (optimize_tuple r) = 4%nat) /\
  model X_train Y_train X_test Y_test n lr print_cost = Err ValueError_unpack.
Proof.
  intros HF HN HY _ _ Hn _. unfold shape in HY. injection HY as HYr HYc.
  pose proof (initialize_with_zeros_nonneg (Z.of_nat (nrows X_train))
                ltac:(lia)) as Hinit.
  rewrite Nat2Z.id in Hinit.
  set (w := tabulate (nrows X_train) 1 (fun _ _ => 0)) in *.
  assert (Hws : well_shaped w X_train Y_train)
    by (unfold well_shaped; simpl; auto).
  destruct (optimize_total w 0 X_train Y_train n lr print_cost Hws HN Hn)
    as (r & Hr & _).
  split.
  - exists w, r. auto.
  - unfold model. rewrite Hinit. cbn [bind]. rewrite Hr. reflexivity.
Qed.

Lemma model_raises_on_valid_configuration_witness :
  let X := mk_ndarray 2 4 [[0; 0; 1; 1]; [0; 1; 0; 1]] in
  let Y := mk_ndarray 1 4 [[0; 0; 0; 1]] in
  model X Y X Y 1000 0.1 false = Err ValueError_unpack.
Proof.
  intros X Y.
  apply (model_raises_on_valid_configuration X Y X Y 1000 0.1 false);
    simpl; try reflexivity; try lia; lra.
Defined.

(** ** What a call writes in the store *)

Lemma keeps_ret (A : Type) (s0 : store) (a : A) (Q : A -> Prop) :
  Q a -> keeps s0 (ret_s a) Q.
Proof.
  intros HQ s Hs. split; [exact Hs|].
  intros a' Ha'. injection Ha' as <-. exact HQ.
Qed.

Lemma keeps_lift (A : Type) (s0 : store) (r : result A) :
  keeps s0 (lift r) (fun _ => True).
Proof. intros s Hs. split; [exact Hs | auto]. Qed.

Lemma keeps_load (s0 : store) (r : ref) : keeps s0 (load r) (fun _ => True).
Proof.
  intros s Hs. unfold load. split; [|auto].
  destruct (nth_error s r); exact Hs.
Qed.

(** A new object lies outside the store the call started from. *)
Lemma keeps_alloc (s0 : store) (v : ndarray) :
  keeps s0 (alloc v) (fun r => (length s0 <= r)%nat).
Proof.
  intros s [t ->]. unfold alloc. cbn [fst snd]. split.
  - exists (t ++ [v]). now rewrite app_assoc.
  - intros a Ha. injection Ha as <-. rewrite length_app. lia.
Qed.

Lemma list_set_app_r (T : Type) (l1 l2 : list T) (n : nat) (x : T) :
  (length l1 <= n)%nat ->
  list_set (l1 ++ l2) n x = l1 ++ list_set l2 (n - length l1) x.
Proof.
  revert n. induction l1 as [|h t IH]; intros n Hn; simpl in *.
  - now rewrite Nat.sub_0_r.
  - destruct n as [|n]; [lia|]. simpl. f_equal. apply IH. lia.
Qed.

(** An item assignment to an object allocated during the call leaves the
    objects that existed before it as they are. *)
Lemma keeps_store_item (s0 : store) (r : ref) (i j : nat) (x : R) :
  (length s0 <= r)%nat -> keeps s0 (store_item r i j x) (fun _ => True).
Proof.
  intros Hr s [t ->]. unfold store_item. split; [|auto].
  destruct (nth_error (s0 ++ t) r) as [v|]; [|now exists t].
  destruct (setitem v i j x) as [v'|e]; [|now exists t].
  cbn [snd]. rewrite list_set_app_r by exact Hr. eauto.
Qed.

Lemma keeps_bind (A B : Type) (s0 : store) (m : M A) (k : A -> M B)
  (Q : A -> Prop) (Q' : B -> Prop) :
  keeps s0 m Q -> (forall a, Q a -> keeps s0 (k a) Q') ->
  keeps s0 (bind_s m k) Q'.
Proof.
  intros Hm Hk s Hs. destruct (Hm s Hs) as [Hs1 HQ]. unfold bind_s.
  destruct (m s) as [[a|e] s1]; cbn [fst snd] in *.
  - apply (Hk a (HQ a eq_refl) s1 Hs1).
  - split; [exact Hs1 | discriminate].
Qed.

Lemma keeps_weaken (A : Type) (s0 : store) (m : M A) (Q Q' : A -> Prop) :
  keeps s0 m Q -> (forall a, Q a -> Q' a) -> keeps s0 m Q'.
Proof.
  intros Hm HQ s Hs. destruct (Hm s Hs) as [Hs1 H]. split; [exact Hs1|].
  intros a Ha. apply HQ, H, Ha.
Qed.

(** A loop whose body keeps the store and re-establishes [Q]. *)
Lemma keeps_for_each (St I : Type) (s0 : store) (body : I -> St -> M St)
  (Q : St -> Prop) (idx : list I) :
  (forall i st, Q st -> keeps s0 (body i st) Q) ->
  forall st, Q st -> keeps s0 (for_each_s body idx st) Q.
Proof.
  intros Hbody. induction idx as [|i rest IH]; intros st HQ; cbn [for_each_s].
  - now apply keeps_ret.
  - eapply keeps_bind; [apply Hbody, HQ | exact IH].
Qed.

Ltac keeps_prim :=
  first [ apply keeps_alloc | apply keeps_load | apply keeps_lift ].

Ltac keeps_op :=
  repeat (eapply keeps_bind; [keeps_prim | intros ? _]);
  first [ apply keeps_alloc
        | eapply keeps_weaken; [keeps_prim | auto]
        | apply keeps_ret; exact I ].

Lemma keeps_shape_s (s0 : store) (a : ref) :
  keeps s0 (shape_s a) (fun _ => True).
Proof. unfold shape_s. keeps_op. Qed.

Lemma keeps_np_sum_s (s0 : store) (a : ref) :
  keeps s0 (np_sum_s a) (fun _ => True).
Proof. unfold np_sum_s. keeps_op. Qed.

Lemma keeps_getitem_s (s0 : store) (a : ref) (i j : nat) :
  keeps s0 (getitem_s a i j) (fun _ => True).
Proof. unfold getitem_s. keeps_op. Qed.

Lemma keeps_np_zeros_s (s0 : store) (r c : Z) :
  keeps s0 (np_zeros_s r c) (new_object s0).
Proof. unfold np_zeros_s. keeps_op. Qed.

Lemma keeps_transpose_s (s0 : store) (a : ref) :
  keeps s0 (transpose_s a) (new_object s0).
Proof. unfold transpose_s. keeps_op. Qed.

Lemma keeps_np_dot_s (s0 : store) (a b : ref) :
  keeps s0 (np_dot_s a b) (new_object s0).
Proof. unfold np_dot_s. keeps_op. Qed.

Lemma keeps_nd_map_s (s0 : store) (f : R -> R) (a : ref) :
  keeps s0 (nd_map_s f a) (new_object s0).
Proof. unfold nd_map_s. keeps_op. Qed.

Lemma keeps_nd_zip_s (s0 : store) (op : R -> R -> R) (a b : ref) :
  keeps s0 (nd_zip_s op a b) (new_object s0).
Proof. unfold nd_zip_s. keeps_op. Qed.

Lemma keeps_reshape_s (s0 : store) (a : ref) (r c : nat) :
  keeps s0 (reshape_s a r c) (new_object s0).
Proof. unfold reshape_s. keeps_op. Qed.

Lemma keeps_sigmoid_s (s0 : store) (z : ref) :
  keeps s0 (sigmoid_s z) (new_object s0).
Proof.
  unfold sigmoid_s.
  repeat (eapply keeps_bind; [apply keeps_nd_map_s | intros ? _]).
  apply keeps_nd_map_s.
Qed.

Create HintDb keeps.

#[local] Hint Resolve keeps_lift keeps_load keeps_shape_s keeps_np_sum_s
  keeps_getitem_s keeps_np_zeros_s keeps_transpose_s keeps_np_dot_s
  keeps_nd_map_s keeps_nd_zip_s keeps_reshape_s keeps_sigmoid_s : keeps.

(** Runs through a sequence of operations, one [bind_s] at a time. *)
Ltac keeps_run :=
  repeat (eapply keeps_bind; [solve [eauto with keeps] | intros ? ?]).

Lemma keeps_propagate_s (s0 : store) (w : ref) (b : R) (X Y : ref) :
  keeps s0 (propagate_s w b X Y) (fun gc => new_object s0 (dw_s (fst gc))).
Proof.
  unfold propagate_s. keeps_run.
  apply keeps_ret. assumption.
Qed.

#[local] Hint Resolve keeps_propagate_s : keeps.

Lemma keeps_optimize_body_s (s0 : store) (X Y : ref) (lr : R)
  (print_cost : bool) (i : nat) (st : loop_state_s) :
  keeps s0 (optimize_body_s X Y lr print_cost i st) (rebound s0).
Proof.
  unfold optimize_body_s. keeps_run.
  apply keeps_ret. right. assumption.
Qed.

Lemma keeps_optimize_s (s0 : store) (w : ref) (b : R) (X Y : ref) (n : Z)
  (lr : R) (print_cost : bool) :
  keeps s0 (optimize_s w b X Y n lr print_cost)
        (fun r => new_object s0 (w_s (params_of r))).
Proof.
  unfold optimize_s.
  eapply keeps_bind.
  - apply keeps_for_each with (Q := rebound s0).
    + intros i st _. apply keeps_optimize_body_s.
    + left. reflexivity.
  - intros st [Hnone | Hnew].
    + rewrite Hnone. cbn [read_local].
      intros s Hs. split; [exact Hs | discriminate].
    + keeps_run. apply keeps_ret. exact Hnew.
Qed.

Lemma keeps_predict_body_s (s0 : store) (A : ref) (i : nat) (Yp : ref) :
  new_object s0 Yp ->
  keeps s0 (predict_body_s A i Yp) (new_object s0).
Proof.
  intros HY. unfold predict_body_s.
  eapply keeps_bind; [apply keeps_getitem_s | intros a _].
  eapply keeps_bind.
  - destruct (Rgt_dec a 0.5); apply keeps_store_item; exact HY.
  - intros _ _. apply keeps_ret. exact HY.
Qed.

Lemma keeps_predict_s (s0 : store) (w : ref) (b : R) (X : ref) :
  keeps s0 (predict_s w b X) (new_object s0).
Proof.
  unfold predict_s.
  eapply keeps_bind; [apply keeps_shape_s | intros sX _].
  eapply keeps_bind; [apply keeps_np_zeros_s | intros Yp HYp].
  keeps_run.
  eapply keeps_bind.
  - apply keeps_for_each with (Q := new_object s0); [|exact HYp].
    intros i st Hst. now apply keeps_predict_body_s.
  - intros Yp' HYp'. keeps_run. apply keeps_ret. exact HYp'.
Qed.

Lemma keeps_initialize_with_zeros_s (s0 : store) (dim : Z) :
  keeps s0 (initialize_with_zeros_s dim) (fun wb => new_object s0 (fst wb)).
Proof.
  unfold initialize_with_zeros_s. keeps_run. apply keeps_ret. assumption.
Qed.

Lemma keeps_unchanged (A : Type) (s : store) (m : M A) (Q : A -> Prop) :
  keeps s m Q -> unchanged s (snd (m s)).
Proof.
  intros Hm. destruct (Hm s) as [[t Ht] _].
  - exists []. now rewrite app_nil_r.
  - rewrite Ht. intros r v Hr. rewrite nth_error_app1; [exact Hr|].
    apply nth_error_Some. congruence.
Qed.

(** ** The two readings of the program agree *)

Lemma denotes_ext (s t : store) (r : ref) (v : ndarray) :
  denotes s r v -> denotes (s ++ t) r v.
Proof.
  unfold denotes. intros H. rewrite nth_error_app1; [exact H|].
  apply nth_error_Some. congruence.
Qed.

Lemma denotes_new (s : store) (v : ndarray) : denotes (s ++ [v]) (length s) v.
Proof.
  unfold denotes. rewrite nth_error_app2 by lia.
  now rewrite Nat.sub_diag.
Qed.

Lemma bind_s_ok (A B : Type) (m : M A) (k : A -> M B) (s s' : store) (a : A) :
  m s = (Ok a, s') -> bind_s m k s = k a s'.
Proof. intros H. unfold bind_s. now rewrite H. Qed.

Lemma bind_s_err (A B : Type) (m : M A) (k : A -> M B) (s s' : store) (e : exn) :
  m s = (Err e, s') -> bind_s m k s = (Err e, s').
Proof. intros H. unfold bind_s. now rewrite H. Qed.

Lemma load_run (s : store) (a : ref) (A : ndarray) :
  denotes s a A -> load a s = (Ok A, s).
Proof. unfold denotes, load. now intros ->. Qed.

Lemma shape_s_run (s : store) (a : ref) (A : ndarray) :
  denotes s a A -> shape_s a s = (Ok (shape A), s).
Proof.
  intros H. unfold shape_s. now rewrite (bind_s_ok _ _ _ _ _ _ _ (load_run s a A H)).
Qed.

Lemma np_sum_s_run (s : store) (a : ref) (A : ndarray) :
  denotes s a A -> np_sum_s a s = (Ok (np_sum A), s).
Proof.
  intros H. unfold np_sum_s. now rewrite (bind_s_ok _ _ _ _ _ _ _ (load_run s a A H)).
Qed.

Lemma getitem_s_run (s : store) (a : ref) (A : ndarray) (i j : nat) :
  denotes s a A -> getitem_s a i j s = (getitem A i j, s).
Proof.
  intros H. unfold getitem_s. now rewrite (bind_s_ok _ _ _ _ _ _ _ (load_run s a A H)).
Qed.

Lemma transpose_s_run (s : store) (a : ref) (A : ndarray) :
  denotes s a A -> transpose_s a s = (Ok (length s), s ++ [transpose A]).
Proof.
  intros H. unfold transpose_s. now rewrite (bind_s_ok _ _ _ _ _ _ _ (load_run s a A H)).
Qed.

Lemma nd_map_s_run (s : store) (f : R -> R) (a : ref) (A : ndarray) :
  denotes s a A -> nd_map_s f a s = (Ok (length s), s ++ [nd_map f A]).
Proof.
  intros H. unfold nd_map_s. now rewrite (bind_s_ok _ _ _ _ _ _ _ (load_run s a A H)).
Qed.

Lemma sigmoid_s_run (s : store) (z : ref) (Z : ndarray) :
  denotes s z Z ->
  sigmoid_s z s =
  (Ok (length (((s ++ [nd_map Ropp Z]) ++ [nd_map exp (nd_map Ropp Z)]) ++
               [nd_map (fun x => 1 + x) (nd_map exp (nd_map Ropp Z))])),
   (((s ++ [nd_map Ropp Z]) ++ [nd_map exp (nd_map Ropp Z)]) ++
    [nd_map (fun x => 1 + x) (nd_map exp (nd_map Ropp Z))]) ++
   [sigmoid_nd Z]).
Proof.
  intros H. unfold sigmoid_s.
  rewrite (bind_s_ok _ _ _ _ _ _ _ (nd_map_s_run s Ropp z Z H)).
  rewrite (bind_s_ok _ _ _ _ _ _ _
             (nd_map_s_run _ exp _ _ (denotes_new s _))).
  rewrite (bind_s_ok _ _ _ _ _ _ _
             (nd_map_s_run _ (fun x => 1 + x) _ _ (denotes_new _ _))).
  apply nd_map_s_run, denotes_new.
Qed.

Lemma np_dot_s_ok (s : store) (a b : ref) (A B C : ndarray) :
  denotes s a A -> denotes s b B -> np_dot A B = Ok C ->
  np_dot_s a b s = (Ok (length s), s ++ [C]).
Proof.
  intros HA HB HC. unfold np_dot_s.
  rewrite (bind_s_ok _ _ _ _ _ _ _ (load_run s a A HA)).
  rewrite (bind_s_ok _ _ _ _ _ _ _ (load_run s b B HB)).
  unfold bind_s, lift. now rewrite HC.
Qed.

Lemma np_dot_s_err (s : store) (a b : ref) (A B : ndarray) (e : exn) :
  denotes s a A -> denotes s b B -> np_dot A B = Err e ->
  np_dot_s a b s = (Err e, s).
Proof.
  intros HA HB HC. unfold np_dot_s.
  rewrite (bind_s_ok _ _ _ _ _ _ _ (load_run s a A HA)).
  rewrite (bind_s_ok _ _ _ _ _ _ _ (load_run s b B HB)).
  unfold bind_s, lift. now rewrite HC.
Qed.

Lemma nd_zip_s_ok (s : store) (op : R -> R -> R) (a b : ref) (A B C : ndarray) :
  denotes s a A -> denotes s b B -> nd_zip op A B = Ok C ->
  nd_zip_s op a b s = (Ok (length s), s ++ [C]).
Proof.
  intros HA HB HC. unfold nd_zip_s.
  rewrite (bind_s_ok _ _ _ _ _ _ _ (load_run s a A HA)).
  rewrite (bind_s_ok _ _ _ _ _ _ _ (load_run s b B HB)).
  unfold bind_s, lift. now rewrite HC.
Qed.

Lemma nd_zip_s_err (s : store) (op : R -> R -> R) (a b : ref) (A B : ndarray)
  (e : exn) :
  denotes s a A -> denotes s b B -> nd_zip op A B = Err e ->
  nd_zip_s op a b s = (Err e, s).
Proof.
  intros HA HB HC. unfold nd_zip_s.
  rewrite (bind_s_ok _ _ _ _ _ _ _ (load_run s a A HA)).
  rewrite (bind_s_ok _ _ _ _ _ _ _ (load_run s b B HB)).
  unfold bind_s, lift. now rewrite HC.
Qed.

Lemma reshape_s_ok (s : store) (a : ref) (A C : ndarray) (r c : nat) :
  denotes s a A -> reshape A r c = Ok C ->
  reshape_s a r c s = (Ok (length s), s ++ [C]).
Proof.
  intros H HC. unfold reshape_s.
  rewrite (bind_s_ok _ _ _ _ _ _ _ (load_run s a A H)).
  unfold bind_s, lift. now rewrite HC.
Qed.

Lemma reshape_s_err (s : store) (a : ref) (A : ndarray) (r c : nat) (e : exn) :
  denotes s a A -> reshape A r c = Err e -> reshape_s a r c s = (Err e, s).
Proof.
  intros H HC. unfold reshape_s.
  rewrite (bind_s_ok _ _ _ _ _ _ _ (load_run s a A H)).
  unfold bind_s, lift. now rewrite HC.
Qed.

Lemma np_zeros_s_ok (s : store) (r c : Z) (C : ndarray) :
  np_zeros r c = Ok C -> np_zeros_s r c s = (Ok (length s), s ++ [C]).
Proof. intros H. unfold np_zeros_s, bind_s, lift. now rewrite H. Qed.

Lemma np_zeros_s_err (s : store) (r c : Z) (e : exn) :
  np_zeros r c = Err e -> np_zeros_s r c s = (Err e, s).
Proof. intros H. unfold np_zeros_s, bind_s, lift. now rewrite H. Qed.

Lemma lift_run (A : Type) (r : result A) (s : store) : lift r s = (r, s).
Proof. reflexivity. Qed.

(** Looks a reference up in a store built by successive allocations. *)
Ltac den := repeat first [ eassumption | apply denotes_new | apply denotes_ext ].

(** Runs an operation that cannot raise. *)
Ltac run_total lem :=
  erewrite bind_s_ok by (apply lem; den); cbn beta.

(** Runs an operation on arrays that can raise: with the result of the value
    reading when it is known already, by cases on it otherwise. *)
Ltac run_fallible ok err :=
  first
    [ erewrite bind_s_ok by (eapply ok; [den .. | eassumption]); cbn beta
    | match goal with
      | |- context [bind ?r _] =>
          let E := fresh "E" in
          destruct r eqn:E; cbn [bind];
          [ erewrite bind_s_ok by (eapply ok; [den .. | exact E]); cbn beta
          | erewrite bind_s_err by (eapply err; [den .. | exact E]);
            cbn; reflexivity ]
      end ].

(** Runs a computation that does not touch the store. *)
Ltac run_lift :=
  lazymatch goal with
  | |- context [bind_s (lift (Ok _)) _ _] =>
      erewrite bind_s_ok by apply lift_run; cbn beta
  | |- context [bind_s (lift ?r) _ _] =>
      let E := fresh "E" in
      destruct r eqn:E; cbn [bind];
      [ erewrite bind_s_ok by apply lift_run; cbn beta
      | erewrite bind_s_err by apply lift_run; cbn; reflexivity ]
  end.

Ltac run_step :=
  lazymatch goal with
  | |- context [bind_s (shape_s _) _ _] => run_total shape_s_run
  | |- context [bind_s (transpose_s _) _ _] => run_total transpose_s_run
  | |- context [bind_s (nd_map_s _ _) _ _] => run_total nd_map_s_run
  | |- context [bind_s (sigmoid_s _) _ _] => run_total sigmoid_s_run
  | |- context [bind_s (np_sum_s _) _ _] => run_total np_sum_s_run
  | |- context [bind_s (np_dot_s _ _) _ _] => run_fallible np_dot_s_ok np_dot_s_err
  | |- context [bind_s (nd_zip_s _ _ _) _ _] => run_fallible nd_zip_s_ok nd_zip_s_err
  | |- context [bind_s (reshape_s _ _ _) _ _] => run_fallible reshape_s_ok reshape_s_err
  | |- context [bind_s (np_zeros_s _ _) _ _] => run_fallible np_zeros_s_ok np_zeros_s_err
  | |- context [bind_s (lift _) _ _] => run_lift
  end.

(** On a store where [w], [X] and [Y] name arrays, the store reading of
    [propagate] returns what the value reading returns on those arrays. *)
Lemma propagate_s_agrees (s : store) (w : ref) (b : R) (X Y : ref)
  (Wv Xv Yv : ndarray) :
  denotes s w Wv -> denotes s X Xv -> denotes s Y Yv ->
  same_result (same_grads (snd (propagate_s w b X Y s)))
              (fst (propagate_s w b X Y s)) (propagate Wv b Xv Yv).
Proof.
  intros Hw HX HY. unfold propagate_s, propagate. cbv zeta.
  run_step. cbn [snd shape].
  repeat run_step.
  unfold ret_s, same_grads. cbn [fst snd same_result dw_s db_s dw db].
  repeat split. den.
Qed.

(** One pass through the loop body of [optimize] in the two readings. *)
Lemma optimize_body_s_agrees (s : store) (X Y : ref) (Xv Yv : ndarray)
  (lr : R) (print_cost : bool) (i : nat) (sts : loop_state_s) (st : loop_state) :
  denotes s X Xv -> denotes s Y Yv -> same_loop_state s sts st ->
  same_result
    (same_loop_state (snd (optimize_body_s X Y lr print_cost i sts s)))
    (fst (optimize_body_s X Y lr print_cost i sts s))
    (optimize_body Xv Yv lr print_cost i st).
Proof.
  intros HX HY (Hw & Hb & _ & _ & Hc & Hi).
  pose proof (propagate_s_agrees s (lss_w sts) (lss_b sts) X Y _ _ _ Hw HX HY)
    as Hp.
  destruct (keeps_propagate_s s (lss_w sts) (lss_b sts) X Y s) as [[t Ht] _];
    [exists []; now rewrite app_nil_r|].
  unfold optimize_body_s, optimize_body. rewrite <- Hb.
  destruct (propagate_s (lss_w sts) (lss_b sts) X Y s) as [[[gs cs]|e] s1] eqn:Es;
    destruct (propagate (ls_w st) (lss_b sts) Xv Yv) as [[g c]|e'] eqn:Ep;
    cbn [fst snd same_result] in Hp, Ht; try contradiction.
  - destruct Hp as (Hcost & Hdb & Hdw). cbn [fst snd] in Hcost, Hdb, Hdw.
    subst s1 cs.
    erewrite bind_s_ok by exact Es. cbn beta. cbn [bind fst snd].
    run_step.
    assert (Hw' : denotes (s ++ t) (lss_w sts) (ls_w st)) by den.
    run_step.
    unfold ret_s, same_loop_state.
    cbn [fst snd same_result lss_w lss_b lss_dw lss_db lss_costs lss_iterations
         ls_w ls_b ls_dw ls_db ls_costs ls_iterations].
    rewrite Hdb, Hc, Hi. repeat split; den.
  - subst e'. erewrite bind_s_err by exact Es. reflexivity.
Qed.

(** The loop of [optimize] in the two readings. *)
Lemma optimize_loop_s_agrees (X Y : ref) (Xv Yv : ndarray) (lr : R)
  (print_cost : bool) (idx : list nat) :
  forall (s : store) (sts : loop_state_s) (st : loop_state),
  denotes s X Xv -> denotes s Y Yv -> same_loop_state s sts st ->
  same_result
    (same_loop_state
       (snd (for_each_s (optimize_body_s X Y lr print_cost) idx sts s)))
    (fst (for_each_s (optimize_body_s X Y lr print_cost) idx sts s))
    (for_each (optimize_body Xv Yv lr print_cost) idx st).
Proof.
  induction idx as [|i rest IH]; intros s sts st HX HY Hst.
  - exact Hst.
  - cbn [for_each_s for_each].
    pose proof (optimize_body_s_agrees s X Y Xv Yv lr print_cost i sts st
                  HX HY Hst) as Hbody.
    pose proof (keeps_unchanged _ s _ _
                  (keeps_optimize_body_s s X Y lr print_cost i sts)) as Hun.
    destruct (optimize_body_s X Y lr print_cost i sts s) as [[sts1|e] s1] eqn:Es;
      destruct (optimize_body Xv Yv lr print_cost i st) as [st1|e'] eqn:Ep;
      cbn [fst snd same_result] in Hbody, Hun; try contradiction.
    + erewrite bind_s_ok by exact Es. cbn [bind].
      apply IH; [apply (Hun _ _ HX) | apply (Hun _ _ HY) | exact Hbody].
    + subst e'. erewrite bind_s_err by exact Es. reflexivity.
Qed.

(** [optimize] in the two readings: on a store where [w], [X] and [Y] name
    arrays, the store reading returns what the value reading returns. *)
Lemma optimize_s_agrees (s : store) (w : ref) (b : R) (X Y : ref)
  (Wv Xv Yv : ndarray) (n : Z) (lr : R) (print_cost : bool) :
  denotes s w Wv -> denotes s X Xv -> denotes s Y Yv ->
  same_result
    (same_optimize_result (snd (optimize_s w b X Y n lr print_cost s)))
    (fst (optimize_s w b X Y n lr print_cost s))
    (optimize Wv b Xv Yv n lr print_cost).
Proof.
  intros Hw HX HY. unfold optimize_s, optimize. cbv zeta.
  set (sts0 := {| lss_w := w; lss_b := b; lss_dw := None; lss_db := None;
                  lss_costs := []; lss_iterations := [] |}).
  set (st0 := {| ls_w := Wv; ls_b := b; ls_dw := None; ls_db := None;
                 ls_costs := []; ls_iterations := [] |}).
  assert (H0 : same_loop_state s sts0 st0)
    by (unfold same_loop_state; simpl; repeat split; auto).
  pose proof (optimize_loop_s_agrees X Y Xv Yv lr print_cost (range n)
                s sts0 st0 HX HY H0) as Hloop.
  destruct (for_each_s (optimize_body_s X Y lr print_cost) (range n) sts0 s)
    as [[sts|e] s1] eqn:Es;
    destruct (for_each (optimize_body Xv Yv lr print_cost) (range n) st0)
      as [st|e'] eqn:Ep;
    cbn [fst snd same_result] in Hloop; try contradiction.
  - erewrite bind_s_ok by exact Es. cbn [bind].
    destruct Hloop as (Hw1 & Hb1 & Hdw1 & Hdb1 & Hc1 & Hi1).
    destruct (lss_dw sts) as [dwr|], (ls_dw st) as [dwv|]; try contradiction;
      cbn [read_local bind]; [|reflexivity].
    rewrite <- Hdb1.
    destruct (lss_db sts) as [dbv|]; cbn [read_local bind]; [|reflexivity].
    unfold same_optimize_result. cbn. auto 10.
  - subst e'. erewrite bind_s_err by exact Es. reflexivity.
Qed.

(** ** The predictor over the store *)

Lemma nth_error_list_set_same (T : Type) (l : list T) (n : nat) (x : T) :
  (n < length l)%nat -> nth_error (list_set l n x) n = Some x.
Proof.
  revert n. induction l as [|h t IH]; intros [|n] Hn; simpl in *;
    try lia; [reflexivity | apply IH; lia].
Qed.

Lemma nth_error_list_set_other (T : Type) (l : list T) (n m : nat) (x : T) :
  n <> m -> nth_error (list_set l n x) m = nth_error l m.
Proof.
  revert n m. induction l as [|h t IH]; intros [|n] [|m] Hnm; simpl;
    try reflexivity; try congruence.
  apply IH. congruence.
Qed.

Lemma store_item_run (s : store) (r : ref) (v v' : ndarray) (i j : nat) (x : R) :
  denotes s r v -> setitem v i j x = Ok v' ->
  store_item r i j x s = (Ok tt, list_set s r v').
Proof. unfold denotes, store_item. now intros -> ->. Qed.

Lemma store_item_err (s : store) (r : ref) (v : ndarray) (i j : nat) (x : R)
  (e : exn) :
  denotes s r v -> setitem v i j x = Err e ->
  store_item r i j x s = (Err e, s).
Proof. unfold denotes, store_item. now intros -> ->. Qed.

(** One pass through the thresholding loop in the two readings: the object
    [Y_prediction] is updated in place to the array the value reading
    builds, and the activations stay as they are. *)
Lemma predict_body_s_agrees (s : store) (A Yp : ref) (Av Yv : ndarray) (i : nat) :
  denotes s A Av -> denotes s Yp Yv -> A <> Yp ->
  let run := predict_body_s A i Yp s in
  denotes (snd run) A Av /\
  same_result (fun r v => r = Yp /\ denotes (snd run) Yp v)
              (fst run) (predict_body Av i Yv).
Proof.
  intros HA HY Hne run. subst run.
  assert (Hrun : predict_body_s A i Yp s =
                 match getitem Av 0 i with
                 | Ok a => (_ <~ (if Rgt_dec a 0.5 then store_item Yp 0 i 1
                                  else store_item Yp 0 i 0) ;; ret_s Yp) s
                 | Err e => (Err e, s)
                 end).
  { unfold predict_body_s. unfold bind_s at 1.
    rewrite (getitem_s_run s A Av 0 i HA). now destruct (getitem Av 0 i). }
  rewrite Hrun. clear Hrun. unfold predict_body.
  destruct (getitem Av 0 i) as [a|e]; cbn [bind fst snd same_result];
    [|split; [exact HA | reflexivity]].
  assert (Hlen : (Yp < length s)%nat)
    by (apply nth_error_Some; unfold denotes in HY; congruence).
  assert (Hstep : forall x,
    denotes (snd ((_ <~ store_item Yp 0 i x ;; ret_s Yp) s)) A Av /\
    same_result
      (fun r v => r = Yp /\
                  denotes (snd ((_ <~ store_item Yp 0 i x ;; ret_s Yp) s)) Yp v)
      (fst ((_ <~ store_item Yp 0 i x ;; ret_s Yp) s)) (setitem Yv 0 i x)).
  { intros x. destruct (setitem Yv 0 i x) as [Y'|e] eqn:ES.
    - erewrite bind_s_ok by (eapply store_item_run; eassumption).
      unfold ret_s. cbn [fst snd same_result]. unfold denotes.
      rewrite nth_error_list_set_other by congruence.
      rewrite nth_error_list_set_same by exact Hlen. auto.
    - erewrite bind_s_err by (eapply store_item_err; eassumption).
      cbn [fst snd same_result]. auto. }
  destruct (Rgt_dec a 0.5); apply Hstep.
Qed.

(** The thresholding loop in the two readings. *)
Lemma predict_loop_s_agrees (A Yp : ref) (Av : ndarray) (idx : list nat) :
  A <> Yp ->
  forall (s : store) (Yv : ndarray),
  denotes s A Av -> denotes s Yp Yv ->
  let run := for_each_s (predict_body_s A) idx Yp s in
  same_result (fun r v => r = Yp /\ denotes (snd run) Yp v)
              (fst run) (for_each (predict_body Av) idx Yv).
Proof.
  intros Hne. induction idx as [|i rest IH]; intros s Yv HA HY run; subst run.
  - cbn. auto.
  - cbn [for_each_s for_each].
    destruct (predict_body_s_agrees s A Yp Av Yv i HA HY Hne) as [HA1 Hbody].
    destruct (predict_body_s A i Yp s) as [[r|e] s1] eqn:Es;
      destruct (predict_body Av i Yv) as [Y1|e'] eqn:Ep;
      cbn [fst snd same_result] in HA1, Hbody; try contradiction.
    + destruct Hbody as [-> HY1].
      erewrite bind_s_ok by exact Es. cbn [bind].
      apply IH; assumption.
    + subst e'. erewrite bind_s_err by exact Es. reflexivity.
Qed.

(** [predict] in the two readings. *)
Lemma predict_s_agrees (s : store) (w : ref) (b : R) (X : ref)
  (Wv Xv : ndarray) :
  denotes s w Wv -> denotes s X Xv ->
  same_result (denotes (snd (predict_s w b X s)))
              (fst (predict_s w b X s)) (predict Wv b Xv).
Proof.
  intros Hw HX. unfold predict_s, predict. cbv zeta.
  run_step. cbn [fst snd shape].
  do 7 run_step. cbn [snd shape].
  match goal with
  | |- context [bind_s (for_each_s (predict_body_s ?A) ?idx ?Yp) _ ?s1] =>
      assert (Hne : A <> Yp) by (rewrite !length_app; simpl; lia);
      assert (Hloop := fun Av Yv HA HY =>
                predict_loop_s_agrees A Yp Av idx Hne s1 Yv HA HY);
      destruct (for_each_s (predict_body_s A) idx Yp s1) as [[r|e] s2] eqn:Es
  end.
  - specialize (Hloop _ _ ltac:(den) ltac:(den)). cbn zeta in Hloop.
    cbn [ncols sigmoid_nd nd_map tabulate] in *.
    match type of Hloop with
    | same_result _ _ ?p => destruct p as [Yv|e'] eqn:Ep
    end; cbn [fst snd same_result] in Hloop; [|contradiction].
    destruct Hloop as [-> HYv].
    erewrite bind_s_ok by exact Es. cbn [bind].
    run_step. run_step.
    unfold ret_s. cbn [fst snd same_result]. exact HYv.
  - specialize (Hloop _ _ ltac:(den) ltac:(den)). cbn zeta in Hloop.
    cbn [ncols sigmoid_nd nd_map tabulate] in *.
    match type of Hloop with
    | same_result _ _ ?p => destruct p as [Yv|e'] eqn:Ep
    end; cbn [fst snd same_result] in Hloop; [contradiction|].
    subst e'. erewrite bind_s_err by exact Es. reflexivity.
Qed.

(** ** Frame of the core operations *)

(** C10: none of [initialize_with_zeros], [propagate], [optimize] and
    [predict] writes an array object that existed before the call, in
    particular none of its arguments: after the call, returning or raising,
    [w], [X] and [Y] name the arrays they named before.  When [optimize]
    returns, the [w] of its result is an object allocated during the call,
    not the caller's.  Each call returns what its value reading computes
    from the caller's arrays. *)
Theorem core_operations_keep_arguments (s : store) (w X Y : ref)
  (Wv Xv Yv : ndarray) (b lr : R) (n dim : Z) (print_cost : bool) :
  denotes s w Wv -> denotes s X Xv -> denotes s Y Yv ->
  let after_propagate := snd (propagate_s w b X Y s) in
  let after_optimize := snd (optimize_s w b X Y n lr print_cost s) in
  let after_predict := snd (predict_s w b X s) in
  (unchanged s (snd (initialize_with_zeros_s dim s)) /\
   unchanged s after_propagate /\ unchanged s after_optimize /\
   unchanged s after_predict) /\
  (denotes after_propagate w Wv /\ denotes after_propagate X Xv /\
   denotes after_propagate Y Yv) /\
  (denotes after_optimize w Wv /\ denotes after_optimize X Xv /\
   denotes after_optimize Y Yv) /\
  (denotes after_predict w Wv /\ denotes after_predict X Xv) /\
  (forall res, fst (optimize_s w b X Y n lr print_cost s) = Ok res ->
               new_object s (w_s (params_of res)) /\ w_s (params_of res) <> w) /\
  same_result (same_grads after_propagate)
              (fst (propagate_s w b X Y s)) (propagate Wv b Xv Yv) /\
  same_result (same_optimize_result after_optimize)
              (fst (optimize_s w b X Y n lr print_cost s))
              (optimize Wv b Xv Yv n lr print_cost) /\
  same_result (denotes after_predict)
              (fst (predict_s w b X s)) (predict Wv b Xv).
Proof.
  intros Hw HX HY after_propagate after_optimize after_predict.
  assert (H0 : unchanged s (snd (initialize_with_zeros_s dim s)))
    by apply (keeps_unchanged _ s _ _ (keeps_initialize_with_zeros_s s dim)).
  assert (H1 : unchanged s after_propagate)
    by apply (keeps_unchanged _ s _ _ (keeps_propagate_s s w b X Y)).
  assert (H2 : unchanged s after_optimize)
    by apply (keeps_unchanged _ s _ _ (keeps_optimize_s s w b X Y n lr print_cost)).
  assert (H3 : unchanged s after_predict)
    by apply (keeps_unchanged _ s _ _ (keeps_predict_s s w b X)).
  split; [auto|].
  split; [repeat split; apply H1; assumption|].
  split; [repeat split; apply H2; assumption|].
  split; [repeat split; apply H3; assumption|].
  split; [|split; [|split]].
  - intros res Hres.
    destruct (keeps_optimize_s s w b X Y n lr print_cost s) as [_ Hnew];
      [exists []; now rewrite app_nil_r|].
    specialize (Hnew res Hres). split; [exact Hnew|].
    unfold new_object in Hnew.
    assert (w < length s)%nat
      by (apply nth_error_Some; unfold denotes in Hw; congruence).
    lia.
  - now apply propagate_s_agrees.
  - now apply optimize_s_agrees.
  - now apply predict_s_agrees.
Qed.

Lemma core_operations_keep_arguments_witness :
  let Wv := tabulate 2 1 (fun _ _ => 0) in
  let Xv := mk_ndarray 2 4 [[0; 0; 1; 1]; [0; 1; 0; 1]] in
  let Yv := mk_ndarray 1 4 [[0; 0; 0; 1]] in
  let s := [Wv; Xv; Yv] in
  let run := optimize_s 0%nat 0 1%nat 2%nat 3 0.1 false s in
  (exists res, fst run = Ok res /\ (3 <= w_s (params_of res))%nat) /\
  nth_error (snd run) 0 = Some Wv /\
  nth_error (snd run) 1 = Some Xv /\
  nth_error (snd run) 2 = Some Yv.
Proof.
  intros Wv Xv Yv s run.
  destruct (core_operations_keep_arguments s 0%nat 1%nat 2%nat Wv Xv Yv
              0 0.1 3 2 false eq_refl eq_refl eq_refl)
    as (_ & _ & (H0 & H1 & H2) & _ & Hnew & _ & Hsame & _).
  split; [|exact (conj H0 (conj H1 H2))].
  assert (Hws : well_shaped Wv Xv Yv)
    by (unfold well_shaped; simpl; repeat split; reflexivity).
  assert (HN : (1 <= ncols Xv)%nat) by (simpl; lia).
  assert (Hn : (1 <= 3)%Z) by lia.
  destruct (optimize_total Wv 0 Xv Yv 3 0.1 false Hws HN Hn) as (r & Hr & _).
  rewrite Hr in Hsame. fold s run in Hsame, Hnew.
  destruct (fst run) as [res|e]; [|contradiction].
  exists res. split; [reflexivity|]. apply (Hnew res eq_refl).
Defined.

(** * Further properties of the core *)

(** ** Edge cases of the forward and backward pass *)

(** X1: an empty batch: with weights aligned to [X] but no example column,
    [propagate] raises at the division [-1 / m]. *)
Theorem propagate_no_examples (w : ndarray) (b : R) (X Y : ndarray) :
  nrows w = nrows X -> ncols X = 0%nat ->
  propagate w b X Y = Err ZeroDivisionError.
Proof.
  intros Hr HN. unfold propagate.
  rewrite np_dot_aligned by exact Hr. cbn [bind]. now rewrite HN.
Qed.

Lemma propagate_no_examples_witness :
  propagate (tabulate 2 1 (fun _ _ => 0)) 0
            (tabulate 2 0 (fun _ _ => 0)) (tabulate 1 0 (fun _ _ => 0))
  = Err ZeroDivisionError.
Proof. apply propagate_no_examples; reflexivity. Defined.

Lemma broadcast_dim_1_l (n : nat) : broadcast_dim 1 n = Some n.
Proof.
  unfold broadcast_dim. destruct (Nat.eqb_spec 1 n) as [<-|]; reflexivity.
Qed.

Lemma broadcast_dim_1_r (n : nat) : broadcast_dim n 1 = Some n.
Proof.
  unfold broadcast_dim. destruct (Nat.eqb_spec n 1) as [->|]; [reflexivity|].
  reflexivity.
Qed.

(** A one-row array against an array of [r] rows and as many columns: the
    row is repeated. *)
Lemma nd_zip_row_rows (op : R -> R -> R) (c : nat) (g : nat -> R) (Y : ndarray) :
  ncols Y = c ->
  nd_zip op (tabulate 1 c (fun _ j => g j)) Y =
  Ok (tabulate (nrows Y) c (fun i j => op (g j) (get Y i j))).
Proof.
  intros Hc. unfold nd_zip. cbn [nrows ncols tabulate].
  rewrite broadcast_dim_1_l, Hc, broadcast_dim_same. f_equal.
  apply tabulate_ext. intros i j Hi Hj.
  change (bidx 1 i) with 0%nat. rewrite !bidx_lt by lia.
  now rewrite get_tabulate by lia.
Qed.

Lemma nd_zip_rows_row (op : R -> R -> R) (c : nat) (g : nat -> R) (Y : ndarray) :
  ncols Y = c ->
  nd_zip op Y (tabulate 1 c (fun _ j => g j)) =
  Ok (tabulate (nrows Y) c (fun i j => op (get Y i j) (g j))).
Proof.
  intros Hc. unfold nd_zip. cbn [nrows ncols tabulate].
  rewrite broadcast_dim_1_r, Hc, broadcast_dim_same. f_equal.
  apply tabulate_ext. intros i j Hi Hj.
  change (bidx 1 i) with 0%nat. rewrite !bidx_lt by lia.
  now rewrite get_tabulate by lia.
Qed.

(** X2: labels with the right number of columns but more than one row (or none):
    every array operation broadcasts, and the call is stopped only by the
    assertion on the shape of [dw]. *)
Theorem propagate_label_rows (w : ndarray) (b : R) (X Y : ndarray) :
  nrows w = nrows X -> ncols w = 1%nat -> (1 <= ncols X)%nat ->
  ncols Y = ncols X -> nrows Y <> 1%nat ->
  propagate w b X Y = Err AssertionError.
Proof.
  intros Hwr Hwc HN Hyc Hyr. unfold propagate.
  destruct (forward_activation w b X Hwr Hwc) as [D [-> HA]].
  cbn [bind]. rewrite HA. clear HA D.
  rewrite !py_div_pos by exact HN. cbn [bind].
  rewrite (nd_map_tabulate ln), (nd_map_tabulate (fun a => 1 - a)).
  rewrite (nd_map_tabulate ln).
  rewrite (nd_zip_rows_row Rmult (ncols X) (fun j => ln (activation w b X j)))
    by assumption.
  cbn [bind].
  rewrite (nd_zip_rows_row Rmult (ncols X)
             (fun j => ln (1 - activation w b X j)))
    by (simpl; assumption).
  cbn [bind]. rewrite nd_zip_same_shape by reflexivity. cbn [bind].
  rewrite (nd_zip_row_rows Rminus (ncols X) (activation w b X)) by assumption.
  cbn [bind]. rewrite np_dot_aligned by reflexivity. cbn [bind].
  unfold shape. cbn [nrows ncols nd_map tabulate transpose].
  unfold shape_eqb. cbn [fst snd]. rewrite Hwc.
  destruct (Nat.eqb_spec (nrows Y) 1); [lia|].
  now rewrite andb_false_r.
Qed.

Lemma propagate_label_rows_witness :
  propagate (tabulate 2 1 (fun _ _ => 0)) 0
            (mk_ndarray 2 3 [[0; 1; 1]; [1; 0; 1]])
            (mk_ndarray 2 3 [[0; 1; 1]; [0; 1; 1]])
  = Err AssertionError.
Proof. apply propagate_label_rows; simpl; lia. Defined.

(** X3: labels whose number of columns is neither the number of examples nor 1:
    the first product with the labels cannot be broadcast and raises. *)
Theorem propagate_label_columns (w : ndarray) (b : R) (X Y : ndarray) :
  nrows w = nrows X -> ncols w = 1%nat -> (2 <= ncols X)%nat ->
  ncols Y <> ncols X -> ncols Y <> 1%nat ->
  propagate w b X Y = Err ValueError_broadcast.
Proof.
  intros Hwr Hwc HN Hyc Hy1. unfold propagate.
  destruct (forward_activation w b X Hwr Hwc) as [D [-> HA]].
  cbn [bind]. rewrite HA. clear HA D.
  rewrite !py_div_pos by lia. cbn [bind].
  rewrite (nd_map_tabulate ln).
  unfold nd_zip at 1. cbn [nrows ncols tabulate].
  assert (Hcols : broadcast_dim (ncols Y) (ncols X) = None).
  { unfold broadcast_dim.
    destruct (Nat.eqb_spec (ncols Y) (ncols X)); [contradiction|].
    destruct (Nat.eqb_spec (ncols Y) 1); [contradiction|].
    destruct (Nat.eqb_spec (ncols X) 1); [lia | reflexivity]. }
  rewrite Hcols. now destruct (broadcast_dim (nrows Y) 1).
Qed.

Lemma propagate_label_columns_witness :
  propagate (tabulate 2 1 (fun _ _ => 0)) 0
            (mk_ndarray 2 3 [[0; 1; 1]; [1; 0; 1]])
            (mk_ndarray 1 2 [[0; 1]])
  = Err ValueError_broadcast.
Proof. apply propagate_label_columns; simpl; lia. Defined.

(** A single label against a row of [c] entries: the label is repeated. *)
Lemma nd_zip_label_row (op : R -> R -> R) (c : nat) (g : nat -> R) (Y : ndarray) :
  nrows Y = 1%nat -> ncols Y = 1%nat ->
  nd_zip op Y (tabulate 1 c (fun _ j => g j)) =
  Ok (tabulate 1 c (fun _ j => op (get Y 0 0) (g j))).
Proof.
  intros Hr Hc. unfold nd_zip. cbn [nrows ncols tabulate].
  rewrite Hr, Hc, broadcast_dim_same, broadcast_dim_1_l. f_equal.
  apply tabulate_ext. intros i j Hi Hj.
  change (bidx 1 i) with 0%nat. change (bidx 1 j) with 0%nat.
  rewrite bidx_lt by lia. now rewrite get_tabulate by lia.
Qed.

Lemma nd_zip_row_label (op : R -> R -> R) (c : nat) (g : nat -> R) (Y : ndarray) :
  nrows Y = 1%nat -> ncols Y = 1%nat ->
  nd_zip op (tabulate 1 c (fun _ j => g j)) Y =
  Ok (tabulate 1 c (fun _ j => op (g j) (get Y 0 0))).
Proof.
  intros Hr Hc. unfold nd_zip. cbn [nrows ncols tabulate].
  rewrite Hr, Hc, broadcast_dim_same, broadcast_dim_1_r. f_equal.
  apply tabulate_ext. intros i j Hi Hj.
  change (bidx 1 i) with 0%nat. change (bidx 1 j) with 0%nat.
  rewrite bidx_lt by lia. now rewrite get_tabulate by lia.
Qed.

(** X4: a label array of shape [(1, 1)] is not rejected: numpy broadcasts the one
    label over all [N] examples, and [propagate] returns what it returns on
    the row that repeats this label [N] times. *)
Theorem propagate_single_label (w : ndarray) (b : R) (X Y : ndarray) :
  nrows w = nrows X -> ncols w = 1%nat -> (1 <= ncols X)%nat ->
  shape Y = (1%nat, 1%nat) ->
  exists g cost,
    propagate w b X Y = Ok (g, cost) /\
    propagate w b X (repeat_label Y (ncols X)) = Ok (g, cost).
Proof.
  intros Hwr Hwc HN HY. unfold shape in HY. injection HY as Hyr Hyc.
  assert (Hws : well_shaped w X (repeat_label Y (ncols X)))
    by (unfold well_shaped, repeat_label; simpl; auto).
  do 2 eexists. split; [|now apply propagate_well_shaped].
  unfold propagate.
  destruct (forward_activation w b X Hwr Hwc) as [D [-> HA]].
  cbn [bind]. rewrite HA. clear HA D.
  rewrite !py_div_pos by exact HN. cbn [bind].
  rewrite (nd_map_tabulate ln), (nd_map_tabulate (fun a => 1 - a)).
  rewrite (nd_map_tabulate ln).
  rewrite (nd_zip_label_row Rmult (ncols X) (fun j => ln (activation w b X j)))
    by assumption.
  cbn [bind].
  rewrite (nd_zip_label_row Rmult (ncols X)
             (fun j => ln (1 - activation w b X j)))
    by (simpl; assumption).
  cbn [bind]. rewrite nd_zip_tabulate. cbn [bind].
  rewrite (nd_zip_row_label Rminus (ncols X) (activation w b X)) by assumption.
  cbn [bind]. rewrite transpose_tabulate.
  rewrite np_dot_aligned by reflexivity. cbn [bind].
  rewrite nd_map_tabulate. unfold shape. cbn [nrows ncols tabulate].
  rewrite Hwr, Hwc, shape_eqb_refl. cbn [assert bind].
  rewrite !np_sum_row.
  assert (Hlab : forall j, (j < ncols X)%nat ->
            get (repeat_label Y (ncols X)) 0 j = get Y 0 0)
    by (intros j Hj; unfold repeat_label; now rewrite get_tabulate by lia).
  assert (H1Y : get (nd_map (fun y => 1 - y) Y) 0 0 = 1 - get Y 0 0)
    by (unfold nd_map; rewrite get_tabulate by lia; reflexivity).
  f_equal. f_equal; [f_equal|].
  - unfold spec_dw. apply tabulate_ext. intros i j Hi Hj. f_equal.
    apply sum_upto_ext. intros k Hk.
    rewrite get_tabulate by lia. now rewrite Hlab.
  - unfold spec_db. f_equal. apply sum_upto_ext. intros j Hj.
    now rewrite Hlab.
  - unfold spec_cost.
    transitivity (-1 / INR (ncols X) *
      sum_upto (ncols X)
        (fun j => get (repeat_label Y (ncols X)) 0 j * ln (activation w b X j) +
                  (1 - get (repeat_label Y (ncols X)) 0 j) *
                  ln (1 - activation w b X j))); [|lra].
    f_equal. apply sum_upto_ext. intros j Hj. now rewrite Hlab, H1Y.
Qed.

Lemma propagate_single_label_witness :
  let w := tabulate 2 1 (fun _ _ => 0) in
  let X := mk_ndarray 2 3 [[0; 1; 1]; [1; 0; 1]] in
  let Y := mk_ndarray 1 1 [[1]] in
  exists g cost,
    propagate w 0 X Y = Ok (g, cost) /\
    propagate w 0 X (repeat_label Y 3) = Ok (g, cost).
Proof.
  intros w X Y.
  apply (propagate_single_label w 0 X Y); simpl; try reflexivity; lia.
Defined.

(** ** The cost and the gradients in numbers *)

Lemma sum_upto_const (n : nat) (c : R) : sum_upto n (fun _ => c) = INR n * c.
Proof.
  induction n as [|n IH].
  - unfold sum_upto. simpl. lra.
  - rewrite sum_upto_S, IH, S_INR. lra.
Qed.

Lemma sum_upto_lt (n : nat) (f g : nat -> R) :
  (1 <= n)%nat -> (forall j, (j < n)%nat -> f j < g j) ->
  sum_upto n f < sum_upto n g.
Proof.
  intros Hn H. induction n as [|n IH]; [lia|].
  rewrite !sum_upto_S. destruct n as [|n].
  - unfold sum_upto. simpl. specialize (H 0%nat ltac:(lia)). lra.
  - assert (sum_upto (S n) f < sum_upto (S n) g)
      by (apply IH; [lia | intros j Hj; apply H; lia]).
    specialize (H (S n) ltac:(lia)). lra.
Qed.

Lemma sum_upto_le (n : nat) (f g : nat -> R) :
  (forall j, (j < n)%nat -> f j <= g j) -> sum_upto n f <= sum_upto n g.
Proof.
  intros H. induction n as [|n IH].
  - unfold sum_upto. simpl. lra.
  - rewrite !sum_upto_S.
    assert (sum_upto n f <= sum_upto n g) by (apply IH; intros; apply H; lia).
    specialize (H n ltac:(lia)). lra.
Qed.

(** The mean of [n >= 1] numbers strictly between [lo] and [hi] lies strictly
    between them. *)
Lemma mean_between (n : nat) (f : nat -> R) (lo hi : R) :
  (1 <= n)%nat -> (forall j, (j < n)%nat -> lo < f j < hi) ->
  lo < 1 / INR n * sum_upto n f < hi.
Proof.
  intros Hn H.
  assert (HN : 0 < INR n) by (apply lt_0_INR; lia).
  assert (Hlo : sum_upto n (fun _ => lo) < sum_upto n f)
    by (apply sum_upto_lt; [exact Hn | intros j Hj; apply H, Hj]).
  assert (Hhi : sum_upto n f < sum_upto n (fun _ => hi))
    by (apply sum_upto_lt; [exact Hn | intros j Hj; apply H, Hj]).
  rewrite sum_upto_const in Hlo, Hhi.
  unfold Rdiv. rewrite Rmult_1_l.
  split.
  - apply (Rmult_lt_reg_l (INR n)); [exact HN|].
    rewrite <- Rmult_assoc, Rinv_r by lra. lra.
  - apply (Rmult_lt_reg_l (INR n)); [exact HN|].
    rewrite <- Rmult_assoc, Rinv_r by lra. lra.
Qed.

Lemma activation_zero_parameters (w : ndarray) (X : ndarray) (j : nat) :
  (forall k, (k < nrows X)%nat -> get w k 0 = 0) ->
  activation w 0 X j = 0.5.
Proof.
  intros Hw. unfold activation.
  rewrite (sum_upto_ext _ _ (fun _ => 0))
    by (intros k Hk; rewrite Hw by exact Hk; lra).
  rewrite sum_upto_const, Rmult_0_r, Rplus_0_l. apply sigmoid_zero.
Qed.

Lemma ln_half : ln 0.5 = - ln 2.
Proof. replace 0.5 with (/ 2) by lra. apply ln_Rinv. lra. Qed.

Lemma spec_cost_zero_parameters (w X Y : ndarray) :
  (forall k, (k < nrows X)%nat -> get w k 0 = 0) -> (1 <= ncols X)%nat ->
  spec_cost w 0 X Y = ln 2.
Proof.
  intros Hw HN. unfold spec_cost.
  assert (HN' : INR (ncols X) <> 0) by (apply not_0_INR; lia).
  rewrite (sum_upto_ext _ _ (fun _ => ln 0.5)).
  - rewrite sum_upto_const, ln_half. field. exact HN'.
  - intros j Hj. rewrite activation_zero_parameters by exact Hw.
    replace (1 - 0.5) with 0.5 by lra. lra.
Qed.

(** X5: the first cost of a training run: from the parameters
    [initialize_with_zeros] returns, every activation is 0.5 and [propagate]
    returns the cost [ln 2], whatever the features and the labels are. *)
Theorem cost_at_zero_parameters (X Y : ndarray) :
  shape Y = (1%nat, ncols X) -> (1 <= ncols X)%nat ->
  exists w g,
    initialize_with_zeros (Z.of_nat (nrows X)) = Ok (w, 0) /\
    propagate w 0 X Y = Ok (g, ln 2).
Proof.
  intros HY HN. unfold shape in HY. injection HY as Hyr Hyc.
  pose proof (initialize_with_zeros_nonneg (Z.of_nat (nrows X)) ltac:(lia))
    as Hinit.
  rewrite Nat2Z.id in Hinit.
  set (w := tabulate (nrows X) 1 (fun _ _ => 0)) in *.
  assert (Hws : well_shaped w X Y) by (unfold well_shaped; simpl; auto).
  exists w. eexists. split; [exact Hinit|].
  rewrite propagate_well_shaped by assumption. do 2 f_equal.
  apply spec_cost_zero_parameters; [|exact HN].
  intros k Hk. unfold w. now rewrite get_tabulate by lia.
Qed.

Lemma cost_at_zero_parameters_witness :
  let X := mk_ndarray 2 4 [[0; 0; 1; 1]; [0; 1; 0; 1]] in
  let Y := mk_ndarray 1 4 [[0; 0; 0; 1]] in
  exists w g,
    initialize_with_zeros 2 = Ok (w, 0) /\ propagate w 0 X Y = Ok (g, ln 2).
Proof.
  intros X Y. apply (cost_at_zero_parameters X Y); simpl; [reflexivity | lia].
Defined.

Lemma ln_neg (a : R) : 0 < a < 1 -> ln a < 0.
Proof. intros [H0 H1]. rewrite <- ln_1. now apply ln_increasing. Qed.

(** X6: in exact arithmetic (entries read as real numbers), with labels
    between 0 and 1, the binary ones in particular, the cost [propagate]
    returns is positive and no logarithm is taken outside its domain, since
    every activation lies strictly between 0 and 1.  The rounding of an
    activation to 0 or 1 in floating point, where the logarithm is infinite,
    is outside this statement. *)
Theorem propagate_cost_positive (w : ndarray) (b : R) (X Y : ndarray) :
  well_shaped w X Y -> (1 <= ncols X)%nat ->
  (forall j, (j < ncols X)%nat -> 0 <= get Y 0 j <= 1) ->
  exists g cost,
    propagate w b X Y = Ok (g, cost) /\ 0 < cost /\
    forall j, (j < ncols X)%nat ->
      0 < activation w b X j /\ 0 < 1 - activation w b X j.
Proof.
  intros Hws HN HY. do 2 eexists.
  split; [now apply propagate_well_shaped|].
  assert (Hact : forall j, 0 < activation w b X j /\ 0 < 1 - activation w b X j).
  { intros j. unfold activation.
    pose proof (sigmoid_pos (sum_upto (nrows X)
                  (fun k => get w k 0 * get X k j) + b)).
    pose proof (sigmoid_lt_1 (sum_upto (nrows X)
                  (fun k => get w k 0 * get X k j) + b)).
    lra. }
  split; [|intros j _; apply Hact].
  unfold spec_cost.
  assert (Hneg : sum_upto (ncols X)
            (fun j => get Y 0 j * ln (activation w b X j) +
                      (1 - get Y 0 j) * ln (1 - activation w b X j)) <
          sum_upto (ncols X) (fun _ => 0)).
  { apply sum_upto_lt; [exact HN|]. intros j Hj.
    destruct (Hact j) as [Ha H1a]. specialize (HY j Hj).
    pose proof (ln_neg (activation w b X j) ltac:(lra)).
    pose proof (ln_neg (1 - activation w b X j) ltac:(lra)).
    nra. }
  rewrite sum_upto_const, Rmult_0_r in Hneg.
  assert (0 < 1 / INR (ncols X))
    by (apply Rdiv_lt_0_compat; [lra | apply lt_0_INR; lia]).
  nra.
Qed.

Lemma propagate_cost_positive_witness :
  let w := mk_ndarray 2 1 [[1]; [-1]] in
  let X := mk_ndarray 2 2 [[0; 1]; [1; 0]] in
  let Y := mk_ndarray 1 2 [[0; 1]] in
  exists g cost, propagate w 0 X Y = Ok (g, cost) /\ 0 < cost.
Proof.
  intros w X Y.
  destruct (propagate_cost_positive w 0 X Y) as (g & cost & H1 & H2 & _).
  - unfold well_shaped. simpl. repeat split; reflexivity.
  - simpl. lia.
  - intros j Hj. simpl in Hj.
    destruct j as [|[|j]]; [| |lia]; unfold get; simpl; lra.
  - exists g, cost. split; assumption.
Defined.

(** X7: in exact arithmetic (entries read as real numbers), with labels
    between 0 and 1 and features between 0 and 1, as after the division by
    255, the bias gradient and every entry of the weight gradient lie
    strictly between -1 and 1.  In floating point an activation can round to
    0 or 1, and the bounds can then be reached. *)
Theorem propagate_gradient_bounds (w : ndarray) (b : R) (X Y : ndarray) :
  well_shaped w X Y -> (1 <= ncols X)%nat ->
  (forall j, (j < ncols X)%nat -> 0 <= get Y 0 j <= 1) ->
  (forall i j, (i < nrows X)%nat -> (j < ncols X)%nat -> 0 <= get X i j <= 1) ->
  exists g cost,
    propagate w b X Y = Ok (g, cost) /\
    -1 < db g < 1 /\
    forall i, (i < nrows X)%nat -> -1 < get (dw g) i 0 < 1.
Proof.
  intros Hws HN HY HX. do 2 eexists.
  split; [now apply propagate_well_shaped|]. cbn [dw db].
  assert (Hact : forall j, 0 < activation w b X j < 1).
  { intros j. unfold activation. split; [apply sigmoid_pos | apply sigmoid_lt_1]. }
  split.
  - unfold spec_db. apply mean_between; [exact HN|].
    intros j Hj. specialize (HY j Hj). specialize (Hact j). lra.
  - intros i Hi. unfold spec_dw. rewrite get_tabulate by lia.
    apply mean_between; [exact HN|].
    intros j Hj. specialize (HY j Hj). specialize (Hact j).
    specialize (HX i j Hi Hj). nra.
Qed.

Lemma propagate_gradient_bounds_witness :
  let w := mk_ndarray 2 1 [[1]; [-1]] in
  let X := mk_ndarray 2 2 [[0; 1]; [1; 0]] in
  let Y := mk_ndarray 1 2 [[0; 1]] in
  exists g cost, propagate w 0 X Y = Ok (g, cost) /\ -1 < db g < 1.
Proof.
  intros w X Y.
  destruct (propagate_gradient_bounds w 0 X Y) as (g & cost & H1 & H2 & _).
  - unfold well_shaped. simpl. repeat split; reflexivity.
  - simpl. lia.
  - intros j Hj. simpl in Hj.
    destruct j as [|[|j]]; [| |lia]; unfold get; simpl; lra.
  - intros i j Hi Hj. simpl in Hi, Hj.
    destruct i as [|[|i]]; [| |lia]; (destruct j as [|[|j]]; [| |lia]);
      unfold get; simpl; lra.
  - exists g, cost. split; assumption.
Defined.

(** ** The decision rule of the predictor *)

Lemma sigmoid_gt_half (z : R) : sigmoid z > 0.5 <-> z > 0.
Proof.
  rewrite <- sigmoid_zero. split.
  - intros H. destruct (Rlt_le_dec 0 z) as [Hz | Hz]; [exact Hz|].
    destruct Hz as [Hz | ->]; [|lra].
    pose proof (sigmoid_increasing z 0 Hz). lra.
  - intros H. now apply sigmoid_increasing.
Qed.

(** X8: in exact arithmetic (entries read as real numbers), the predictor is
    a linear classifier: for a column of weights, entry [j] of the prediction
    is 1 exactly when the score [w . x_j + b] is positive, and 0 when it is
    zero or negative.  In floating point a positive score too small to move
    [exp] away from 1 still gives the activation 0.5 and the prediction 0;
    that rounding is outside this statement. *)
Theorem predict_linear_rule (w : ndarray) (b : R) (X : ndarray) :
  wf w -> shape w = (nrows X, 1%nat) ->
  exists Y_prediction,
    predict w b X = Ok Y_prediction /\
    forall j, (j < ncols X)%nat ->
      let score := sum_upto (nrows X) (fun k => get w k 0 * get X k j) + b in
      (score > 0 -> get Y_prediction 0 j = 1) /\
      (score <= 0 -> get Y_prediction 0 j = 0).
Proof.
  intros Hwf Hs. unfold shape in Hs. injection Hs as Hr Hc.
  assert (Hsize : size w = nrows X) by (unfold size; lia).
  destruct (predict_total w b X Hsize) as (W & HW & _ & Hp).
  rewrite <- Hr, reshape_column_id in HW by assumption. injection HW as <-.
  eexists. split; [exact Hp|].
  intros j Hj score. rewrite get_tabulate by lia.
  unfold threshold, activation. fold score.
  destruct (Rgt_dec (sigmoid score) 0.5) as [H | H];
    rewrite sigmoid_gt_half in H; split; intros; lra.
Qed.

Lemma predict_linear_rule_witness :
  let w := mk_ndarray 2 1 [[1]; [1]] in
  let X := mk_ndarray 2 2 [[0; 1]; [0; 1]] in
  exists Y_prediction,
    predict w (-1) X = Ok Y_prediction /\
    get Y_prediction 0 0 = 0 /\ get Y_prediction 0 1 = 1.
Proof.
  intros w X.
  assert (Hwf : wf w) by (split; simpl; [reflexivity | repeat constructor]).
  destruct (predict_linear_rule w (-1) X Hwf eq_refl) as (Yp & Hp & Hrule).
  exists Yp. split; [exact Hp|]. split.
  - apply (Hrule 0%nat); [simpl; lia|]. unfold sum_upto, get. simpl. lra.
  - apply (Hrule 1%nat); [simpl; lia|]. unfold sum_upto, get. simpl. lra.
Defined.

(** X9: [predict] accepts a weight array of any shape with as many entries as
    [X] has rows, a row vector for instance, and raises the reshape error for
    every other weight array. *)
Theorem predict_accepts_by_size (w : ndarray) (b : R) (X : ndarray) :
  (size w = nrows X ->
   exists Y_prediction, predict w b X = Ok Y_prediction /\
                        shape Y_prediction = (1%nat, ncols X)) /\
  (size w <> nrows X -> predict w b X = Err ValueError_reshape).
Proof.
  split.
  - intros Hsize. destruct (predict_total w b X Hsize) as (W & _ & _ & Hp).
    eexists. split; [exact Hp | reflexivity].
  - intros Hsize. unfold predict. rewrite np_zeros_row. cbn [bind].
    unfold reshape. rewrite Nat.mul_1_r.
    now destruct (Nat.eqb_spec (size w) (nrows X)).
Qed.

Lemma predict_accepts_by_size_witness :
  let X := mk_ndarray 2 2 [[0; 1]; [0; 1]] in
  (exists Y_prediction,
     predict (mk_ndarray 1 2 [[1; 1]]) 0 X = Ok Y_prediction /\
     shape Y_prediction = (1%nat, 2%nat)) /\
  predict (mk_ndarray 3 1 [[1]; [1]; [1]]) 0 X = Err ValueError_reshape.
Proof.
  intros X. split.
  - apply (proj1 (predict_accepts_by_size (mk_ndarray 1 2 [[1; 1]]) 0 X)).
    reflexivity.
  - apply (proj2 (predict_accepts_by_size (mk_ndarray 3 1 [[1]; [1]; [1]]) 0 X)).
    unfold size. simpl. lia.
Defined.

(** X10: an untrained model: with the parameters [initialize_with_zeros] returns,
    [predict] answers class 0 for every example of every batch. *)
Theorem predict_untrained (X : ndarray) :
  exists w,
    initialize_with_zeros (Z.of_nat (nrows X)) = Ok (w, 0) /\
    predict w 0 X = Ok (tabulate 1 (ncols X) (fun _ _ => 0)).
Proof.
  pose proof (initialize_with_zeros_nonneg (Z.of_nat (nrows X)) ltac:(lia))
    as Hinit.
  rewrite Nat2Z.id in Hinit.
  set (w := tabulate (nrows X) 1 (fun _ _ => 0)) in *.
  exists w. split; [exact Hinit|].
  destruct (predict_total w 0 X) as (W & HW & _ & Hp);
    [unfold size; simpl; lia|].
  rewrite Hp. f_equal. apply tabulate_ext. intros i j _ Hj.
  replace (nrows X) with (nrows w) in HW by reflexivity.
  rewrite reshape_column_id in HW by (try apply wf_tabulate; reflexivity).
  injection HW as <-.
  rewrite activation_zero_parameters
    by (intros k Hk; unfold w; now rewrite get_tabulate by lia).
  unfold threshold. destruct (Rgt_dec 0.5 0.5); [lra | reflexivity].
Qed.

(** ** More on the optimizer loop *)

(** One pass through the loop body, with what it leaves in [dw] and [db]. *)
Lemma optimize_body_last_gradients (X Y : ndarray) (lr : R) (print_cost : bool)
  (p0 : params_t) (i : nat) (st : loop_state) :
  (1 <= ncols X)%nat ->
  optimize_invariant X Y lr p0 i st /\ last_gradients X Y lr p0 i st ->
  exists st', optimize_body X Y lr print_cost i st = Ok st' /\
              optimize_invariant X Y lr p0 (1 + i) st' /\
              last_gradients X Y lr p0 (1 + i) st'.
Proof.
  intros HN [Hinv _].
  destruct (optimize_body_invariant X Y lr print_cost p0 i st HN Hinv)
    as (st' & Hbody & Hinv').
  exists st'. split; [exact Hbody|]. split; [exact Hinv'|].
  destruct Hinv as (Hws & Hiter & _).
  intros _. replace (1 + i - 1)%nat with i by lia.
  exists {| p_w := ls_w st; p_b := ls_b st |}. do 2 eexists.
  split; [exact Hiter|]. split; [exact Hws|]. cbn [p_w p_b].
  split; [now apply propagate_well_shaped|].
  unfold optimize_body in Hbody.
  rewrite propagate_well_shaped in Hbody by assumption.
  cbn [bind dw db] in Hbody.
  destruct (nd_zip Rminus (ls_w st) _) as [w'|e]; cbn [bind] in Hbody;
    [|discriminate].
  injection Hbody as <-. cbn [ls_dw ls_db dw db]. split; reflexivity.
Qed.

(** [optimize] on well-shaped data, with its parameters and its gradients. *)
Lemma optimize_total_gradients (w : ndarray) (b : R) (X Y : ndarray) (n : Z)
  (lr : R) (print_cost : bool) :
  well_shaped w X Y -> (1 <= ncols X)%nat -> (1 <= n)%Z ->
  let p0 := {| p_w := w; p_b := b |} in
  exists r p c,
    optimize w b X Y n lr print_cost = Ok r /\
    gd_iter X Y lr (Z.to_nat n) p0 = Ok (params r) /\
    well_shaped (p_w (params r)) X Y /\
    gd_iter X Y lr (Z.to_nat n - 1) p0 = Ok p /\
    well_shaped (p_w p) X Y /\
    propagate (p_w p) (p_b p) X Y = Ok (grads r, c).
Proof.
  intros Hws HN Hn p0.
  set (st0 := {| ls_w := w; ls_b := b; ls_dw := None; ls_db := None;
                 ls_costs := []; ls_iterations := [] |}).
  assert (Hinv0 : optimize_invariant X Y lr p0 0 st0 /\
                  last_gradients X Y lr p0 0 st0).
  { split.
    - unfold optimize_invariant. simpl. repeat split; try assumption;
        try constructor; try apply Hws; lia.
    - intros H. lia. }
  destruct (for_each_seq_invariant _ (optimize_body X Y lr print_cost)
              (fun i st => optimize_invariant X Y lr p0 i st /\
                           last_gradients X Y lr p0 i st)
              (Z.to_nat n)
              (fun i st _ H =>
                 optimize_body_last_gradients X Y lr print_cost p0 i st HN H)
              (Z.to_nat n) 0%nat st0 (Nat.le_refl _) Hinv0)
    as (st & Hloop & (Hws' & Hiter & _) & Hlast).
  cbn [Nat.add] in *.
  destruct Hlast as (p & g & c & Hp & Hwsp & Hprop & Hdw & Hdb); [lia|].
  exists {| params := {| p_w := ls_w st; p_b := ls_b st |};
            grads := {| dw := dw g; db := db g |};
            costs := ls_costs st; iterations := ls_iterations st |}, p, c.
  split.
  - unfold optimize, range. fold st0. rewrite Hloop. cbn [bind].
    rewrite Hdw, Hdb. reflexivity.
  - cbn [params grads p_w]. destruct g as [gw gb]. cbn [dw db]. auto.
Qed.

(** X11: the gradients [optimize] returns are those of its last iteration: they
    were computed from the parameters before the last update, and the
    parameters it returns are the result of that update. *)
Theorem optimize_returns_last_gradients (w : ndarray) (b : R) (X Y : ndarray)
  (n : Z) (lr : R) (print_cost : bool) :
  well_shaped w X Y -> (1 <= ncols X)%nat -> (1 <= n)%Z ->
  exists r p c,
    optimize w b X Y n lr print_cost = Ok r /\
    gd_iter X Y lr (Z.to_nat n - 1) {| p_w := w; p_b := b |} = Ok p /\
    propagate (p_w p) (p_b p) X Y = Ok (grads r, c) /\
    gd_step X Y lr p = Ok (params r) /\
    p_b (params r) = p_b p - lr * db (grads r).
Proof.
  intros Hws HN Hn.
  destruct (optimize_total_gradients w b X Y n lr print_cost Hws HN Hn)
    as (r & p & c & Hr & Hiter & _ & Hp & Hwsp & Hprop).
  exists r, p, c. split; [exact Hr|]. split; [exact Hp|]. split; [exact Hprop|].
  replace (Z.to_nat n) with (S (Z.to_nat n - 1)) in Hiter by lia.
  cbn [gd_iter] in Hiter. rewrite Hp in Hiter. cbn [bind] in Hiter.
  split; [exact Hiter|].
  unfold gd_step in Hiter. rewrite Hprop in Hiter. cbn [bind] in Hiter.
  destruct (nd_zip Rminus (p_w p) _) as [w'|e]; cbn [bind] in Hiter;
    [|discriminate].
  injection Hiter as <-. reflexivity.
Qed.

Lemma optimize_returns_last_gradients_witness :
  let w := tabulate 2 1 (fun _ _ => 0) in
  let X := mk_ndarray 2 4 [[0; 0; 1; 1]; [0; 1; 0; 1]] in
  let Y := mk_ndarray 1 4 [[0; 0; 0; 1]] in
  exists r p c,
    optimize w 0 X Y 3 0.1 false = Ok r /\
    gd_iter X Y 0.1 2 {| p_w := w; p_b := 0 |} = Ok p /\
    propagate (p_w p) (p_b p) X Y = Ok (grads r, c) /\
    gd_step X Y 0.1 p = Ok (params r).
Proof.
  intros w X Y.
  destruct (optimize_returns_last_gradients w 0 X Y 3 0.1 false)
    as (r & p & c & H1 & H2 & H3 & H4 & _).
  - unfold well_shaped. simpl. repeat split; reflexivity.
  - simpl. lia.
  - lia.
  - exists r, p, c. auto.
Defined.

Lemma bind_assoc (A B C : Type) (r : result A) (f : A -> result B)
  (g : B -> result C) :
  bind (bind r f) g = bind r (fun a => bind (f a) g).
Proof. now destruct r. Qed.

(** Steps of gradient descent add up. *)
Lemma gd_iter_add (X Y : ndarray) (lr : R) (n1 n2 : nat) (p : params_t) :
  gd_iter X Y lr (n1 + n2) p =
  bind (gd_iter X Y lr n1 p) (gd_iter X Y lr n2).
Proof.
  induction n2 as [|n2 IH].
  - rewrite Nat.add_0_r. cbn [gd_iter]. now destruct (gd_iter X Y lr n1 p).
  - rewrite Nat.add_succ_r. cbn [gd_iter]. rewrite IH. apply bind_assoc.
Qed.

(** X12: training can be resumed: running [optimize] for [n1] iterations and
    then for [n2] more from the parameters it returned gives the same
    parameters and gradients as one run of [n1 + n2] iterations.  (The cost
    history of the second run restarts at iteration 0.) *)
Theorem optimize_resume (w : ndarray) (b : R) (X Y : ndarray) (n1 n2 : Z)
  (lr : R) (print_cost : bool) :
  well_shaped w X Y -> (1 <= ncols X)%nat -> (1 <= n1)%Z -> (1 <= n2)%Z ->
  exists r1 r2 r,
    optimize w b X Y n1 lr print_cost = Ok r1 /\
    optimize (p_w (params r1)) (p_b (params r1)) X Y n2 lr print_cost = Ok r2 /\
    optimize w b X Y (n1 + n2) lr print_cost = Ok r /\
    params r = params r2 /\ grads r = grads r2.
Proof.
  intros Hws HN Hn1 Hn2.
  destruct (optimize_total_gradients w b X Y n1 lr print_cost Hws HN Hn1)
    as (r1 & _ & _ & Hr1 & Hiter1 & Hws1 & _).
  destruct (optimize_total_gradients (p_w (params r1)) (p_b (params r1)) X Y
              n2 lr print_cost Hws1 HN Hn2)
    as (r2 & p2 & c2 & Hr2 & Hiter2 & _ & Hp2 & _ & Hprop2).
  destruct (optimize_total_gradients w b X Y (n1 + n2) lr print_cost Hws HN
              ltac:(lia))
    as (r & p & c & Hr & Hiter & _ & Hp & _ & Hprop).
  exists r1, r2, r. split; [exact Hr1|]. split; [exact Hr2|].
  split; [exact Hr|].
  assert (Hp1 : {| p_w := p_w (params r1); p_b := p_b (params r1) |} = params r1)
    by now destruct (params r1).
  rewrite Hp1 in Hiter2, Hp2.
  replace (Z.to_nat (n1 + n2)) with (Z.to_nat n1 + Z.to_nat n2)%nat
    in Hiter, Hp by lia.
  replace (Z.to_nat n1 + Z.to_nat n2 - 1)%nat
    with (Z.to_nat n1 + (Z.to_nat n2 - 1))%nat in Hp by lia.
  rewrite gd_iter_add, Hiter1 in Hiter, Hp. cbn [bind] in Hiter, Hp.
  rewrite Hiter2 in Hiter. rewrite Hp2 in Hp.
  injection Hiter as Hparams. injection Hp as Hpp. subst p.
  rewrite Hprop2 in Hprop. injection Hprop as Hg _.
  split; congruence.
Qed.

Lemma optimize_resume_witness :
  let w := tabulate 2 1 (fun _ _ => 0) in
  let X := mk_ndarray 2 4 [[0; 0; 1; 1]; [0; 1; 0; 1]] in
  let Y := mk_ndarray 1 4 [[0; 0; 0; 1]] in
  exists r1 r2 r,
    optimize w 0 X Y 2 0.1 false = Ok r1 /\
    optimize (p_w (params r1)) (p_b (params r1)) X Y 3 0.1 false = Ok r2 /\
    optimize w 0 X Y 5 0.1 false = Ok r /\
    params r = params r2 /\ grads r = grads r2.
Proof.
  intros w X Y. apply (optimize_resume w 0 X Y 2 3 0.1 false).
  - unfold well_shaped. simpl. repeat split; reflexivity.
  - simpl. lia.
  - lia.
  - lia.
Defined.

Lemma length_filter_recorded (n : nat) :
  length (filter recorded (seq 0 n)) = ((n + 99) / 100)%nat.
Proof.
  induction n as [|n IH].
  - reflexivity.
  - rewrite filter_recorded_S, length_app, IH. unfold recorded.
    pose proof (Nat.div_mod_eq n 100) as Hn.
    pose proof (Nat.mod_upper_bound n 100 ltac:(lia)) as Hlt.
    destruct (Nat.eqb_spec (n mod 100) 0) as [H0 | H0]; cbn [length].
    + replace (n + 99)%nat with (99 + (n / 100) * 100)%nat by lia.
      replace (S n + 99)%nat with (0 + (S (n / 100)) * 100)%nat by lia.
      rewrite !Nat.div_add by lia.
      rewrite (Nat.div_small 99 100) by lia.
      change (0 / 100)%nat with 0%nat. lia.
    + replace (n + 99)%nat
        with ((n mod 100 - 1) + (S (n / 100)) * 100)%nat by lia.
      replace (S n + 99)%nat
        with (n mod 100 + (S (n / 100)) * 100)%nat by lia.
      rewrite !Nat.div_add by lia.
      rewrite (Nat.div_small (n mod 100 - 1) 100),
              (Nat.div_small (n mod 100) 100) by lia.
      lia.
Qed.

(** X13: the two histories [optimize] returns have the same length, one entry per
    started hundred of iterations, and the first entry is for iteration 0. *)
Theorem optimize_history_length (w : ndarray) (b : R) (X Y : ndarray) (n : Z)
  (lr : R) (print_cost : bool) :
  well_shaped w X Y -> (1 <= ncols X)%nat -> (1 <= n)%Z ->
  exists r,
    optimize w b X Y n lr print_cost = Ok r /\
    length (costs r) = length (iterations r) /\
    length (iterations r) = ((Z.to_nat n + 99) / 100)%nat /\
    nth_error (iterations r) 0 = Some 0%nat.
Proof.
  intros Hws HN Hn.
  destruct (optimize_total w b X Y n lr print_cost Hws HN Hn)
    as (r & Hr & _ & _ & Hits & Hcosts).
  exists r. split; [exact Hr|]. split; [|split].
  - symmetry. eapply Forall2_length. exact Hcosts.
  - rewrite Hits. apply length_filter_recorded.
  - rewrite Hits. replace (Z.to_nat n) with (S (Z.to_nat n - 1)) by lia.
    reflexivity.
Qed.

Lemma optimize_history_length_witness :
  let w := tabulate 2 1 (fun _ _ => 0) in
  let X := mk_ndarray 2 4 [[0; 0; 1; 1]; [0; 1; 0; 1]] in
  let Y := mk_ndarray 1 4 [[0; 0; 0; 1]] in
  exists r,
    optimize w 0 X Y 2000 0.01 true = Ok r /\
    length (costs r) = 20%nat /\ length (iterations r) = 20%nat.
Proof.
  intros w X Y.
  destruct (optimize_history_length w 0 X Y 2000 0.01 true)
    as (r & H1 & H2 & H3 & _).
  - unfold well_shaped. simpl. repeat split; reflexivity.
  - simpl. lia.
  - lia.
  - exists r. split; [exact H1|].
    assert (H20 : ((Z.to_nat 2000 + 99) / 100)%nat = 20%nat) by reflexivity.
    rewrite H2, H3, H20. split; reflexivity.
Defined.

Lemma nd_zip_wf (op : R -> R -> R) (A B C : ndarray) :
  nd_zip op A B = Ok C -> wf C.
Proof.
  unfold nd_zip.
  destruct (broadcast_dim (nrows A) (nrows B)); [|discriminate].
  destruct (broadcast_dim (ncols A) (ncols B)); [|discriminate].
  intros H. injection H as <-. apply wf_tabulate.
Qed.

(** X14: shapes are kept through training: the weights and the weight gradient
    [optimize] returns are rectangular arrays of the shape of the weights it
    was given. *)
Theorem optimize_keeps_shapes (w : ndarray) (b : R) (X Y : ndarray) (n : Z)
  (lr : R) (print_cost : bool) :
  well_shaped w X Y -> (1 <= ncols X)%nat -> (1 <= n)%Z ->
  exists r,
    optimize w b X Y n lr print_cost = Ok r /\
    shape (p_w (params r)) = shape w /\ wf (p_w (params r)) /\
    shape (dw (grads r)) = shape w /\ wf (dw (grads r)).
Proof.
  intros Hws HN Hn.
  destruct (optimize_total_gradients w b X Y n lr print_cost Hws HN Hn)
    as (r & p & c & Hr & Hiter & Hwsr & Hp & Hwsp & Hprop).
  exists r. split; [exact Hr|].
  destruct Hws as (Hwr & Hwc & _). destruct Hwsr as (Hrr & Hrc & _).
  split; [unfold shape; congruence|]. split.
  - replace (Z.to_nat n) with (S (Z.to_nat n - 1)) in Hiter by lia.
    cbn [gd_iter] in Hiter. rewrite Hp in Hiter. cbn [bind] in Hiter.
    unfold gd_step in Hiter. rewrite Hprop in Hiter. cbn [bind] in Hiter.
    destruct (nd_zip Rminus (p_w p) _) as [w'|e] eqn:Ez; cbn [bind] in Hiter;
      [|discriminate].
    injection Hiter as <-. cbn [p_w]. eapply nd_zip_wf. exact Ez.
  - rewrite propagate_well_shaped in Hprop by assumption.
    injection Hprop as <- _. cbn [dw]. unfold spec_dw, shape.
    cbn [nrows ncols tabulate]. split; [congruence | apply wf_tabulate].
Qed.

Lemma optimize_keeps_shapes_witness :
  let w := tabulate 2 1 (fun _ _ => 0) in
  let X := mk_ndarray 2 4 [[0; 0; 1; 1]; [0; 1; 0; 1]] in
  let Y := mk_ndarray 1 4 [[0; 0; 0; 1]] in
  exists r,
    optimize w 0 X Y 3 0.1 false = Ok r /\
    shape (p_w (params r)) = (2%nat, 1%nat) /\
    shape (dw (grads r)) = (2%nat, 1%nat).
Proof.
  intros w X Y.
  destruct (optimize_keeps_shapes w 0 X Y 3 0.1 false)
    as (r & H1 & H2 & _ & H3 & _).
  - unfold well_shaped. simpl. repeat split; reflexivity.
  - simpl. lia.
  - lia.
  - exists r. auto.
Defined.

(** X15: weights that do not match the features stop training in its first
    iteration: [optimize] raises the shape error of [propagate] and returns
    no parameters, however many iterations were asked for. *)
Theorem optimize_shape_mismatch (w : ndarray) (b : R) (X Y : ndarray) (n : Z)
  (lr : R) (print_cost : bool) :
  nrows w <> nrows X -> (1 <= n)%Z ->
  optimize w b X Y n lr print_cost = Err ValueError_shapes_not_aligned.
Proof.
  intros Hne Hn. unfold optimize, range.
  replace (Z.to_nat n) with (S (Z.to_nat n - 1)) by lia.
  cbn [seq for_each]. unfold optimize_body at 1. cbn [ls_w ls_b].
  unfold propagate. rewrite np_dot_not_aligned by exact Hne. reflexivity.
Qed.

Lemma optimize_shape_mismatch_witness :
  optimize (tabulate 3 1 (fun _ _ => 0)) 0
           (tabulate 2 5 (fun _ _ => 0)) (tabulate 1 5 (fun _ _ => 0))
           2000 0.5 false
  = Err ValueError_shapes_not_aligned.
Proof. apply optimize_shape_mismatch; [simpl; lia | lia]. Defined.

(** ** The accuracy figure *)

Lemma np_mean_tabulate_bounds (r c : nat) (f : nat -> nat -> R) :
  (1 <= r * c)%nat ->
  (forall i j, (i < r)%nat -> (j < c)%nat -> 0 <= f i j <= 1) ->
  0 <= np_mean (tabulate r c f) <= 1.
Proof.
  intros Hsize Hf. unfold np_mean, size. cbn [nrows ncols tabulate].
  rewrite np_sum_tabulate.
  assert (HN : 0 < INR (r * c)) by (apply lt_0_INR; lia).
  assert (Hlo : sum_upto r (fun _ => sum_upto c (fun _ => 0)) <=
                sum_upto r (fun i => sum_upto c (f i))).
  { apply sum_upto_le. intros i Hi. apply sum_upto_le. intros j Hj.
    apply Hf; assumption. }
  assert (Hhi : sum_upto r (fun i => sum_upto c (f i)) <=
                sum_upto r (fun _ => sum_upto c (fun _ => 1))).
  { apply sum_upto_le. intros i Hi. apply sum_upto_le. intros j Hj.
    apply Hf; assumption. }
  rewrite !sum_upto_const in Hlo, Hhi.
  rewrite Rmult_0_r, Rmult_0_r in Hlo.
  rewrite Rmult_1_r, <- mult_INR in Hhi.
  split.
  - apply Rmult_le_pos; [exact Hlo | left; now apply Rinv_0_lt_compat].
  - apply (Rmult_le_reg_r (INR (r * c))); [exact HN|].
    unfold Rdiv. rewrite Rmult_assoc, Rinv_l by lra. lra.
Qed.

(** X16: the accuracy [model] prints for predictions and labels of one shape,
    both made of zeros and ones: a percentage between 0 and 100, equal to
    100 when every prediction is the label. *)
Theorem accuracy_range (P Y : ndarray) :
  shape P = shape Y -> (1 <= size P)%nat ->
  (forall i j, (i < nrows P)%nat -> (j < ncols P)%nat ->
     (get P i j = 0 \/ get P i j = 1) /\ (get Y i j = 0 \/ get Y i j = 1)) ->
  exists a,
    accuracy P Y = Ok a /\ 0 <= a <= 100 /\
    ((forall i j, (i < nrows P)%nat -> (j < ncols P)%nat ->
        get P i j = get Y i j) -> a = 100).
Proof.
  intros Hs Hsize Hbin. unfold shape in Hs. injection Hs as Hr Hc.
  unfold accuracy. rewrite nd_zip_same_shape by assumption. cbn [bind].
  rewrite nd_map_tabulate. eexists. split; [reflexivity|].
  assert (Hm : 0 <= np_mean (tabulate (nrows P) (ncols P)
                      (fun i j => Rabs (get P i j - get Y i j))) <= 1).
  { apply np_mean_tabulate_bounds; [exact Hsize|].
    intros i j Hi Hj. destruct (Hbin i j Hi Hj) as [[-> | ->] [-> | ->]];
      split; try apply Rabs_pos;
      unfold Rabs; destruct (Rcase_abs _); lra. }
  split; [lra|].
  intros Heq.
  rewrite (tabulate_ext _ _ _ (fun _ _ => 0)).
  - unfold np_mean. rewrite np_sum_tabulate.
    rewrite (sum_upto_ext _ _ (fun _ => 0))
      by (intros i Hi; rewrite sum_upto_const; lra).
    rewrite sum_upto_const. lra.
  - intros i j Hi Hj. rewrite Heq by assumption.
    rewrite Rminus_diag. apply Rabs_R0.
Qed.

Lemma accuracy_range_witness :
  let P := mk_ndarray 1 4 [[0; 0; 1; 1]] in
  let Y := mk_ndarray 1 4 [[0; 0; 0; 1]] in
  exists a, accuracy P Y = Ok a /\ 0 <= a <= 100.
Proof.
  intros P Y.
  destruct (accuracy_range P Y) as (a & H1 & H2 & _).
  - reflexivity.
  - unfold size. simpl. lia.
  - intros i j Hi Hj. simpl in Hi, Hj.
    assert (i = 0%nat) by lia. subst i.
    destruct j as [|[|[|[|j]]]]; [| | | |lia]; unfold get; simpl; lra.
  - exists a. split; assumption.
Defined.

(** ** What the calls return, in the store *)

(** X17: the arrays returned by [initialize_with_zeros], [propagate] (the
    gradient [dw]) and [predict] are objects allocated during the call:
    none is one of the caller's arrays, so writing into a result never
    touches an argument. *)
Theorem returned_arrays_are_new (s : store) (w X Y : ref) (b : R) (dim : Z) :
  (forall wb, fst (initialize_with_zeros_s dim s) = Ok wb ->
              new_object s (fst wb)) /\
  (forall gc, fst (propagate_s w b X Y s) = Ok gc ->
              new_object s (dw_s (fst gc))) /\
  (forall r, fst (predict_s w b X s) = Ok r -> new_object s r).
Proof.
  assert (Hs : exists t, s = s ++ t) by (exists []; now rewrite app_nil_r).
  split; [|split].
  - apply (keeps_initialize_with_zeros_s s dim s Hs).
  - apply (keeps_propagate_s s w b X Y s Hs).
  - apply (keeps_predict_s s w b X s Hs).
Qed.

Lemma returned_arrays_are_new_witness :
  let X := mk_ndarray 2 2 [[0; 1]; [0; 1]] in
  let W := mk_ndarray 2 1 [[1]; [1]] in
  exists r, fst (predict_s 0%nat 0 1%nat [W; X]) = Ok r /\ (2 <= r)%nat.
Proof.
  intros X W.
  pose proof (predict_s_agrees [W; X] 0%nat 0 1%nat W X eq_refl eq_refl) as Hsame.
  destruct (predict_total W 0 X eq_refl) as (W' & _ & _ & Hp).
  rewrite Hp in Hsame.
  destruct (fst (predict_s 0%nat 0 1%nat [W; X])) as [r|e] eqn:E;
    [|contradiction].
  exists r. split; [reflexivity|].
  apply (proj2 (proj2 (returned_arrays_are_new [W; X] 0%nat 1%nat 1%nat 0 0)) r E).
Defined.

(** ** Loading and preprocessing *)

Lemma reshape_labels (A : narray) (m : nat) :
  nshape A = [m] ->
  shape0 A = Ok m /\
  reshape_2d A 1 m = Ok (tabulate 1 m (fun _ j => nth j (ndata A) 0)).
Proof.
  intros H. unfold shape0, reshape_2d, nsize. rewrite H. cbn [fold_right].
  split; [reflexivity|].
  destruct (Nat.eqb_spec (m * 1) (1 * m)); [|lia].
  reflexivity.
Qed.

(** The row-major flattening of [m >= 1] images of shape [(h, w, k)]. *)
Lemma reshape_rows_images (A : narray) (m h w k : nat) :
  nshape A = [m; h; w; k] -> (1 <= m)%nat ->
  shape0 A = Ok m /\
  reshape_rows A m =
  Ok (tabulate m (h * w * k)
        (fun i j => nth (i * (h * w * k) + j) (ndata A) 0)).
Proof.
  intros H Hm.
  assert (Hsize : nsize A = ((h * w * k) * m)%nat)
    by (unfold nsize; rewrite H; cbn [fold_right]; ring).
  unfold shape0, reshape_rows, reshape_2d. rewrite H, Hsize.
  split; [reflexivity|].
  rewrite Nat.Div0.mod_mul, Nat.div_mul by lia.
  destruct (Nat.eqb_spec m 0); [lia|]. cbn [Nat.eqb negb orb].
  destruct (Nat.eqb_spec (h * w * k * m) (m * (h * w * k))) as [_ | Hne];
    [reflexivity | exfalso; apply Hne; ring].
Qed.

(** The whole of [preprocessing] on image sets of shapes [(m, h, w, k)] and
    [(m', h', w', k')] with 1-D label arrays. *)
Lemma preprocessing_total (C : Type) (files : raw_dataset C)
  (m h w k m' h' w' k' n n' : nat) :
  nshape (file_train_set_x files) = [m; h; w; k] ->
  nshape (file_train_set_y files) = [n] ->
  nshape (file_test_set_x files) = [m'; h'; w'; k'] ->
  nshape (file_test_set_y files) = [n'] ->
  (1 <= m)%nat -> (1 <= m')%nat ->
  preprocessing files =
  Ok (tabulate (h * w * k) m
        (fun p i => nth (i * (h * w * k) + p)
                        (ndata (file_train_set_x files)) 0 / 255),
      tabulate 1 n (fun _ j => nth j (ndata (file_train_set_y files)) 0),
      tabulate (h' * w' * k') m'
        (fun p i => nth (i * (h' * w' * k') + p)
                        (ndata (file_test_set_x files)) 0 / 255),
      tabulate 1 n' (fun _ j => nth j (ndata (file_test_set_y files)) 0)).
Proof.
  intros Hx Hy Hx' Hy' Hm Hm'.
  destruct (reshape_labels _ _ Hy) as [Hy0 Hyr].
  destruct (reshape_labels _ _ Hy') as [Hy0' Hyr'].
  destruct (reshape_rows_images _ _ _ _ _ Hx Hm) as [Hx0 Hxr].
  destruct (reshape_rows_images _ _ _ _ _ Hx' Hm') as [Hx0' Hxr'].
  unfold preprocessing, load_dataset. cbv zeta.
  rewrite Hy0. cbn [bind]. rewrite Hyr. cbn [bind].
  rewrite Hy0'. cbn [bind]. rewrite Hyr'. cbn [bind].
  rewrite Hx0. cbn [bind]. rewrite Hxr. cbn [bind].
  rewrite Hx0'. cbn [bind]. rewrite Hxr'. cbn [bind].
  now rewrite !transpose_tabulate, !nd_map_tabulate.
Qed.

(** X18: [load_dataset] turns the 1-D label arrays into rows: the labels it
    returns have shape [(1, m)], in the order of the file, and the images
    and the class list are returned as read. *)
Theorem load_dataset_labels (C : Type) (files : raw_dataset C) (m m' : nat) :
  nshape (file_train_set_y files) = [m] ->
  nshape (file_test_set_y files) = [m'] ->
  exists train_set_y test_set_y,
    load_dataset files =
    Ok (file_train_set_x files, train_set_y,
        file_test_set_x files, test_set_y, file_list_classes files) /\
    shape train_set_y = (1%nat, m) /\ shape test_set_y = (1%nat, m') /\
    (forall j, (j < m)%nat ->
       get train_set_y 0 j = nth j (ndata (file_train_set_y files)) 0) /\
    (forall j, (j < m')%nat ->
       get test_set_y 0 j = nth j (ndata (file_test_set_y files)) 0).
Proof.
  intros Hy Hy'.
  destruct (reshape_labels _ _ Hy) as [Hy0 Hyr].
  destruct (reshape_labels _ _ Hy') as [Hy0' Hyr'].
  do 2 eexists. split.
  - unfold load_dataset. cbv zeta.
    rewrite Hy0. cbn [bind]. rewrite Hyr. cbn [bind].
    rewrite Hy0'. cbn [bind]. rewrite Hyr'. reflexivity.
  - split; [reflexivity|]. split; [reflexivity|].
    split; intros j Hj; now rewrite get_tabulate by lia.
Qed.

Lemma load_dataset_labels_witness :
  let files := {| file_train_set_x := mk_narray [2; 1; 1; 3]%nat [255; 0; 51; 0; 102; 255];
                  file_train_set_y := mk_narray [2]%nat [1; 0];
                  file_test_set_x := mk_narray [1; 1; 1; 3]%nat [0; 255; 0];
                  file_test_set_y := mk_narray [1]%nat [1];
                  file_list_classes := tt |} in
  exists train_set_y test_set_y,
    load_dataset files =
    Ok (file_train_set_x files, train_set_y,
        file_test_set_x files, test_set_y, tt) /\
    shape train_set_y = (1%nat, 2%nat) /\ get train_set_y 0 0 = 1.
Proof.
  intros files.
  destruct (load_dataset_labels unit files 2 1 eq_refl eq_refl)
    as (Ytr & Yte & H1 & H2 & _ & H3 & _).
  exists Ytr, Yte. split; [exact H1|]. split; [exact H2|].
  rewrite H3 by lia. reflexivity.
Defined.

(** X19: [preprocessing] returns a valid training configuration: from [m] training
    images and [m'] test images of shape [(h, w, k)] with as many labels, the
    feature matrices have shapes [(h*w*k, m)] and [(h*w*k, m')] and the labels
    [(1, m)] and [(1, m')], one column per example in all four. *)
Theorem preprocessing_shapes (C : Type) (files : raw_dataset C)
  (m m' h w k : nat) :
  nshape (file_train_set_x files) = [m; h; w; k] ->
  nshape (file_train_set_y files) = [m] ->
  nshape (file_test_set_x files) = [m'; h; w; k] ->
  nshape (file_test_set_y files) = [m'] ->
  (1 <= m)%nat -> (1 <= m')%nat ->
  exists train_set_x train_set_y test_set_x test_set_y,
    preprocessing files = Ok (train_set_x, train_set_y, test_set_x, test_set_y) /\
    shape train_set_x = ((h * w * k)%nat, m) /\ shape train_set_y = (1%nat, m) /\
    shape test_set_x = ((h * w * k)%nat, m') /\ shape test_set_y = (1%nat, m') /\
    wf train_set_x /\ wf train_set_y /\ wf test_set_x /\ wf test_set_y.
Proof.
  intros Hx Hy Hx' Hy' Hm Hm'. do 4 eexists. split.
  - exact (preprocessing_total C files m h w k m' h w k m m'
             Hx Hy Hx' Hy' Hm Hm').
  - repeat split; apply wf_tabulate.
Qed.

Lemma preprocessing_shapes_witness :
  let files := {| file_train_set_x := mk_narray [2; 1; 1; 3]%nat [255; 0; 51; 0; 102; 255];
                  file_train_set_y := mk_narray [2]%nat [1; 0];
                  file_test_set_x := mk_narray [1; 1; 1; 3]%nat [0; 255; 0];
                  file_test_set_y := mk_narray [1]%nat [1];
                  file_list_classes := tt |} in
  exists train_set_x train_set_y test_set_x test_set_y,
    preprocessing files = Ok (train_set_x, train_set_y, test_set_x, test_set_y) /\
    shape train_set_x = (3%nat, 2%nat) /\ shape train_set_y = (1%nat, 2%nat).
Proof.
  intros files.
  destruct (preprocessing_shapes unit files 2 1 1 1 3
              eq_refl eq_refl eq_refl eq_refl)
    as (a & b & c & d & H1 & H2 & H3 & _); [lia | lia |].
  exists a, b, c, d. auto.
Defined.

(** X20: each column of the feature matrix is one image, flattened in row-major
    order and divided by 255: entry [((r*w + c)*k + ch, i)] is channel [ch]
    of the pixel at row [r] and column [c] of image [i]. *)
Theorem preprocessing_layout (C : Type) (files : raw_dataset C)
  (m m' h w k : nat) :
  nshape (file_train_set_x files) = [m; h; w; k] ->
  nshape (file_train_set_y files) = [m] ->
  nshape (file_test_set_x files) = [m'; h; w; k] ->
  nshape (file_test_set_y files) = [m'] ->
  (1 <= m)%nat -> (1 <= m')%nat ->
  exists train_set_x train_set_y test_set_x test_set_y,
    preprocessing files = Ok (train_set_x, train_set_y, test_set_x, test_set_y) /\
    (forall i r c ch, (i < m)%nat -> (r < h)%nat -> (c < w)%nat -> (ch < k)%nat ->
       get train_set_x ((r * w + c) * k + ch) i =
       pixel (file_train_set_x files) h w k i r c ch / 255) /\
    (forall i r c ch, (i < m')%nat -> (r < h)%nat -> (c < w)%nat -> (ch < k)%nat ->
       get test_set_x ((r * w + c) * k + ch) i =
       pixel (file_test_set_x files) h w k i r c ch / 255) /\
    (forall j, (j < m)%nat ->
       get train_set_y 0 j = nth j (ndata (file_train_set_y files)) 0).
Proof.
  intros Hx Hy Hx' Hy' Hm Hm'. do 4 eexists. split.
  - exact (preprocessing_total C files m h w k m' h w k m m'
             Hx Hy Hx' Hy' Hm Hm').
  - assert (Hidx : forall r c ch, (r < h)%nat -> (c < w)%nat -> (ch < k)%nat ->
              ((r * w + c) * k + ch < h * w * k)%nat).
    { intros r c ch Hr Hc Hch.
      assert ((r * w + c) + 1 <= h * w)%nat by nia. nia. }
    split; [|split].
    + intros i r c ch Hi Hr Hc Hch.
      rewrite get_tabulate by auto. unfold pixel. do 2 f_equal. ring.
    + intros i r c ch Hi Hr Hc Hch.
      rewrite get_tabulate by auto. unfold pixel. do 2 f_equal. ring.
    + intros j Hj. now rewrite get_tabulate by lia.
Qed.

Lemma preprocessing_layout_witness :
  let files := {| file_train_set_x := mk_narray [2; 1; 1; 3]%nat [255; 0; 51; 0; 102; 255];
                  file_train_set_y := mk_narray [2]%nat [1; 0];
                  file_test_set_x := mk_narray [1; 1; 1; 3]%nat [0; 255; 0];
                  file_test_set_y := mk_narray [1]%nat [1];
                  file_list_classes := tt |} in
  exists train_set_x train_set_y test_set_x test_set_y,
    preprocessing files = Ok (train_set_x, train_set_y, test_set_x, test_set_y) /\
    get train_set_x 1 1 = 102 / 255.
Proof.
  intros files.
  destruct (preprocessing_layout unit files 2 1 1 1 3
              eq_refl eq_refl eq_refl eq_refl)
    as (a & b & c & d & H1 & H2 & _); [lia | lia |].
  exists a, b, c, d. split; [exact H1|].
  apply (H2 1%nat 0%nat 0%nat 1%nat); lia.
Defined.

Lemma nth_Forall_bounds (l : list R) (lo hi : R) (n : nat) :
  lo <= 0 <= hi -> Forall (fun x => lo <= x <= hi) l -> lo <= nth n l 0 <= hi.
Proof.
  intros H0 Hl. destruct (Nat.lt_ge_cases n (length l)) as [Hn | Hn].
  - rewrite Forall_forall in Hl. apply Hl. now apply nth_In.
  - now rewrite nth_overflow.
Qed.

(** X21: normalisation: when every pixel value read lies between 0 and 255, every
    feature [preprocessing] returns lies between 0 and 1. *)
Theorem preprocessing_normalised (C : Type) (files : raw_dataset C)
  (m m' h w k : nat) :
  nshape (file_train_set_x files) = [m; h; w; k] ->
  nshape (file_train_set_y files) = [m] ->
  nshape (file_test_set_x files) = [m'; h; w; k] ->
  nshape (file_test_set_y files) = [m'] ->
  (1 <= m)%nat -> (1 <= m')%nat ->
  Forall (fun x => 0 <= x <= 255) (ndata (file_train_set_x files)) ->
  Forall (fun x => 0 <= x <= 255) (ndata (file_test_set_x files)) ->
  exists train_set_x train_set_y test_set_x test_set_y,
    preprocessing files = Ok (train_set_x, train_set_y, test_set_x, test_set_y) /\
    (forall p i, (p < nrows train_set_x)%nat -> (i < ncols train_set_x)%nat ->
       0 <= get train_set_x p i <= 1) /\
    (forall p i, (p < nrows test_set_x)%nat -> (i < ncols test_set_x)%nat ->
       0 <= get test_set_x p i <= 1).
Proof.
  intros Hx Hy Hx' Hy' Hm Hm' Hpx Hpx'. do 4 eexists. split.
  - exact (preprocessing_total C files m h w k m' h w k m m'
             Hx Hy Hx' Hy' Hm Hm').
  - cbn [nrows ncols tabulate]. split; intros p i Hp Hi;
      rewrite get_tabulate by assumption.
    + pose proof (nth_Forall_bounds _ 0 255 (i * (h * w * k) + p)
                    ltac:(lra) Hpx). lra.
    + pose proof (nth_Forall_bounds _ 0 255 (i * (h * w * k) + p)
                    ltac:(lra) Hpx'). lra.
Qed.

Lemma preprocessing_normalised_witness :
  let files := {| file_train_set_x := mk_narray [2; 1; 1; 3]%nat [255; 0; 51; 0; 102; 255];
                  file_train_set_y := mk_narray [2]%nat [1; 0];
                  file_test_set_x := mk_narray [1; 1; 1; 3]%nat [0; 255; 0];
                  file_test_set_y := mk_narray [1]%nat [1];
                  file_list_classes := tt |} in
  exists train_set_x train_set_y test_set_x test_set_y,
    preprocessing files = Ok (train_set_x, train_set_y, test_set_x, test_set_y) /\
    0 <= get train_set_x 2 0 <= 1.
Proof.
  intros files.
  destruct (preprocessing_normalised unit files 2 1 1 1 3
              eq_refl eq_refl eq_refl eq_refl)
    as (a & b & c & d & H1 & H2 & _); [lia | lia | | |].
  - simpl. repeat constructor; lra.
  - simpl. repeat constructor; lra.
  - exists a, b, c, d. split; [exact H1|].
    assert (Hs : shape a = (3%nat, 2%nat)).
    { pose proof (preprocessing_total unit files 2 1 1 3 1 1 1 3 2 1
                    eq_refl eq_refl eq_refl eq_refl) as Ht.
      rewrite Ht in H1 by lia. injection H1 as <- _ _ _. reflexivity. }
    unfold shape in Hs. injection Hs as Hr Hc.
    apply H2; lia.
Defined.

(** X22: an empty image set cannot be preprocessed: with no training image,
    [reshape(0, -1)] is refused and [preprocessing] raises. *)
Theorem preprocessing_empty (C : Type) (files : raw_dataset C)
  (dims : list nat) (n n' : nat) :
  nshape (file_train_set_x files) = 0%nat :: dims ->
  nshape (file_train_set_y files) = [n] ->
  nshape (file_test_set_y files) = [n'] ->
  preprocessing files = Err ValueError_reshape.
Proof.
  intros Hx Hy Hy'.
  destruct (reshape_labels _ _ Hy) as [Hy0 Hyr].
  destruct (reshape_labels _ _ Hy') as [Hy0' Hyr'].
  unfold preprocessing, load_dataset. cbv zeta.
  rewrite Hy0. cbn [bind]. rewrite Hyr. cbn [bind].
  rewrite Hy0'. cbn [bind]. rewrite Hyr'. cbn [bind].
  unfold shape0. rewrite Hx. reflexivity.
Qed.

Lemma preprocessing_empty_witness :
  preprocessing {| file_train_set_x := mk_narray [0; 64; 64; 3]%nat [];
                   file_train_set_y := mk_narray [0]%nat [];
                   file_test_set_x := mk_narray [1; 1; 1; 3]%nat [0; 255; 0];
                   file_test_set_y := mk_narray [1]%nat [1];
                   file_list_classes := tt |}
  = Err ValueError_reshape.
Proof.
  apply (preprocessing_empty unit _ [64; 64; 3]%nat 0 1); reflexivity.
Defined.

(** ** The module as a script *)

(** [model] on a training set with at least one example and one label per
    example: training runs, then the unpacking of what [optimize] returns
    raises. *)
Lemma model_unpack_error (X_train Y_train X_test Y_test : ndarray) (n : Z)
  (lr : R) (print_cost : bool) :
  (1 <= ncols X_train)%nat -> shape Y_train = (1%nat, ncols X_train) ->
  (1 <= n)%Z ->
  model X_train Y_train X_test Y_test n lr print_cost = Err ValueError_unpack.
Proof.
  intros HN HY Hn. unfold shape in HY. injection HY as HYr HYc.
  pose proof (initialize_with_zeros_nonneg (Z.of_nat (nrows X_train))
                ltac:(lia)) as Hinit.
  rewrite Nat2Z.id in Hinit.
  set (w := tabulate (nrows X_train) 1 (fun _ _ => 0)) in *.
  assert (Hws : well_shaped w X_train Y_train)
    by (unfold well_shaped; simpl; auto).
  destruct (optimize_total w 0 X_train Y_train n lr print_cost Hws HN Hn)
    as (r & Hr & _).
  unfold model. rewrite Hinit. cbn [bind]. rewrite Hr. reflexivity.
Qed.

(** X23: running the module never completes: whatever the two files hold, the
    statements at the end of the module end in an exception, raised by the
    preprocessing or by [model]; the name [d] is never bound. *)
Theorem script_never_completes (C : Type) (files : raw_dataset C) :
  exists e, script files = Err e.
Proof.
  unfold script.
  destruct (preprocessing files) as [[[[a b] c] d]|e]; cbn [bind].
  - apply model_never_returns.
  - eauto.
Qed.

(** X24: on a well-formed dataset ([m >= 1] training and [m' >= 1] test images of
    one shape, one label per image) the module preprocesses the data, runs
    the 2000 iterations of training, and then raises at the unpacking in
    [model]: the failure comes after the whole optimisation, not before. *)
Theorem script_raises_after_training (C : Type) (files : raw_dataset C)
  (m m' h w k : nat) :
  nshape (file_train_set_x files) = [m; h; w; k] ->
  nshape (file_train_set_y files) = [m] ->
  nshape (file_test_set_x files) = [m'; h; w; k] ->
  nshape (file_test_set_y files) = [m'] ->
  (1 <= m)%nat -> (1 <= m')%nat ->
  exists train_set_x train_set_y test_set_x test_set_y w0 r,
    preprocessing files = Ok (train_set_x, train_set_y, test_set_x, test_set_y) /\
    initialize_with_zeros (Z.of_nat (nrows train_set_x)) = Ok (w0, 0) /\
    optimize w0 0 train_set_x train_set_y 2000 0.01 true = Ok r /\
    length (costs r) = 20%nat /\
    script files = Err ValueError_unpack.
Proof.
  intros Hx Hy Hx' Hy' Hm Hm'.
  pose proof (preprocessing_total C files m h w k m' h w k m m'
                Hx Hy Hx' Hy' Hm Hm') as Hpre.
  set (Xtr := tabulate (h * w * k) m _) in Hpre.
  set (Ytr := tabulate 1 m _) in Hpre.
  set (Xte := tabulate (h * w * k) m' _) in Hpre.
  set (Yte := tabulate 1 m' _) in Hpre.
  pose proof (initialize_with_zeros_nonneg (Z.of_nat (nrows Xtr)) ltac:(lia))
    as Hinit.
  rewrite Nat2Z.id in Hinit.
  set (w0 := tabulate (nrows Xtr) 1 (fun _ _ => 0)) in *.
  assert (Hws : well_shaped w0 Xtr Ytr) by (unfold well_shaped; simpl; auto).
  assert (HN : (1 <= ncols Xtr)%nat) by exact Hm.
  destruct (optimize_total w0 0 Xtr Ytr 2000 0.01 true Hws HN ltac:(lia))
    as (r & Hr & _ & _ & Hits & Hcosts).
  exists Xtr, Ytr, Xte, Yte, w0, r.
  split; [exact Hpre|]. split; [exact Hinit|]. split; [exact Hr|]. split.
  - rewrite <- (Forall2_length Hcosts), Hits, length_filter_recorded.
    reflexivity.
  - unfold script. rewrite Hpre. cbn [bind].
    apply model_unpack_error; [exact HN | reflexivity | lia].
Qed.

Lemma script_raises_after_training_witness :
  script {| file_train_set_x := mk_narray [2; 1; 1; 3]%nat [255; 0; 51; 0; 102; 255];
            file_train_set_y := mk_narray [2]%nat [1; 0];
            file_test_set_x := mk_narray [1; 1; 1; 3]%nat [0; 255; 0];
            file_test_set_y := mk_narray [1]%nat [1];
            file_list_classes := tt |}
  = Err ValueError_unpack.
Proof.
  destruct (script_raises_after_training unit
              {| file_train_set_x := mk_narray [2; 1; 1; 3]%nat [255; 0; 51; 0; 102; 255];
                 file_train_set_y := mk_narray [2]%nat [1; 0];
                 file_test_set_x := mk_narray [1; 1; 1; 3]%nat [0; 255; 0];
                 file_test_set_y := mk_narray [1]%nat [1];
                 file_list_classes := tt |}
              2 1 1 1 3 eq_refl eq_refl eq_refl eq_refl)
    as (a & b & c & d & w0 & r & _ & _ & _ & _ & H); [lia | lia |].
  exact H.
Defined.

(** ** Symmetries *)

Lemma sum_upto_scal (n : nat) (c : R) (f : nat -> R) :
  sum_upto n (fun i => c * f i) = c * sum_upto n f.
Proof.
  induction n as [|n IH].
  - unfold sum_upto. simpl. lra.
  - rewrite !sum_upto_S, IH. lra.
Qed.

Lemma activation_flip (w : ndarray) (b : R) (X : ndarray) (j : nat) :
  nrows w = nrows X -> ncols w = 1%nat ->
  activation (nd_map Ropp w) (- b) X j = 1 - activation w b X j.
Proof.
  intros Hr Hc. unfold activation. rewrite <- sigmoid_opp. f_equal.
  rewrite (sum_upto_ext _ _ (fun k => -1 * (get w k 0 * get X k j))).
  - rewrite sum_upto_scal. lra.
  - intros k Hk. unfold nd_map. rewrite get_tabulate by lia. lra.
Qed.

(** X25: in exact arithmetic (entries read as real numbers), exchanging the
    two classes mirrors the model: with the labels [1 - Y], the weights [-w]
    and the bias [-b], [propagate] returns the same cost and the opposite
    gradients.  In floating point [sigmoid (- z)] and [1 - sigmoid z] agree
    up to rounding only, and not at all once an activation has rounded to 0
    or 1. *)
Theorem propagate_label_flip (w : ndarray) (b : R) (X Y : ndarray) :
  well_shaped w X Y -> (1 <= ncols X)%nat ->
  exists g cost g',
    propagate w b X Y = Ok (g, cost) /\
    propagate (nd_map Ropp w) (- b) X (nd_map (fun y => 1 - y) Y)
      = Ok (g', cost) /\
    db g' = - db g /\
    forall i, (i < nrows X)%nat -> get (dw g') i 0 = - get (dw g) i 0.
Proof.
  intros Hws HN. pose proof Hws as (Hwr & Hwc & Hyr & Hyc).
  assert (Hws' : well_shaped (nd_map Ropp w) X (nd_map (fun y => 1 - y) Y))
    by (unfold well_shaped; simpl; auto).
  assert (HY' : forall j, (j < ncols X)%nat ->
            get (nd_map (fun y => 1 - y) Y) 0 j = 1 - get Y 0 j)
    by (intros j Hj; unfold nd_map; now rewrite get_tabulate by lia).
  assert (Hterm : forall j, (j < ncols X)%nat ->
            activation (nd_map Ropp w) (- b) X j
              - get (nd_map (fun y => 1 - y) Y) 0 j =
            -1 * (activation w b X j - get Y 0 j))
    by (intros j Hj; rewrite HY', activation_flip by assumption; lra).
  do 3 eexists. split; [now apply propagate_well_shaped|].
  split; [|split].
  - rewrite propagate_well_shaped by assumption. do 2 f_equal.
    unfold spec_cost. f_equal. apply sum_upto_ext. intros j Hj.
    rewrite HY', activation_flip by assumption.
    replace (1 - (1 - get Y 0 j)) with (get Y 0 j) by lra.
    replace (1 - (1 - activation w b X j)) with (activation w b X j) by lra.
    lra.
  - cbn [db]. unfold spec_db.
    rewrite (sum_upto_ext _ _
               (fun j => -1 * (activation w b X j - get Y 0 j))) by exact Hterm.
    rewrite sum_upto_scal. lra.
  - intros i Hi. cbn [dw]. unfold spec_dw. rewrite !get_tabulate by lia.
    rewrite (sum_upto_ext _ _
               (fun j => -1 * (get X i j * (activation w b X j - get Y 0 j)))).
    + rewrite sum_upto_scal. lra.
    + intros j Hj. rewrite Hterm by exact Hj. lra.
Qed.

Lemma propagate_label_flip_witness :
  let w := mk_ndarray 2 1 [[1]; [-1]] in
  let X := mk_ndarray 2 2 [[0; 1]; [1; 0]] in
  let Y := mk_ndarray 1 2 [[0; 1]] in
  exists g cost g',
    propagate w 3 X Y = Ok (g, cost) /\
    propagate (nd_map Ropp w) (- 3) X (nd_map (fun y => 1 - y) Y)
      = Ok (g', cost) /\
    db g' = - db g.
Proof.
  intros w X Y.
  destruct (propagate_label_flip w 3 X Y) as (g & c & g' & H1 & H2 & H3 & _).
  - unfold well_shaped. simpl. repeat split; reflexivity.
  - simpl. lia.
  - exists g, c, g'. auto.
Defined.

(** X26: in exact arithmetic (entries read as real numbers), predictions
    depend on the direction of the parameters only: scaling the weights and
    the bias by the same positive factor changes no prediction.  In floating
    point the scaling can move a score across the rounding of the threshold;
    that is outside this statement. *)
Theorem predict_scale_invariant (w : ndarray) (b c : R) (X : ndarray) :
  wf w -> shape w = (nrows X, 1%nat) -> 0 < c ->
  exists Y_prediction,
    predict w b X = Ok Y_prediction /\
    predict (nd_map (fun x => c * x) w) (c * b) X = Ok Y_prediction.
Proof.
  intros Hwf Hs Hc. unfold shape in Hs. injection Hs as Hr Hcol.
  assert (Hsize : size w = nrows X) by (unfold size; lia).
  destruct (predict_total w b X Hsize) as (W & HW & _ & Hp).
  rewrite <- Hr, reshape_column_id in HW by assumption. injection HW as <-.
  set (w' := nd_map (fun x => c * x) w).
  assert (Hsize' : size w' = nrows X) by (unfold size, w'; simpl; lia).
  destruct (predict_total w' (c * b) X Hsize') as (W' & HW' & _ & Hp').
  replace (nrows X) with (nrows w') in HW' by (unfold w'; simpl; lia).
  rewrite reshape_column_id in HW'
    by (try apply wf_tabulate; unfold w'; simpl; assumption).
  injection HW' as <-.
  eexists. split; [exact Hp|]. rewrite Hp'. f_equal.
  apply tabulate_ext. intros i j _ Hj. unfold threshold, activation.
  set (z := sum_upto (nrows X) (fun k => get w k 0 * get X k j) + b).
  assert (Hz : sum_upto (nrows X) (fun k => get w' k 0 * get X k j) + c * b
               = c * z).
  { unfold z. rewrite Rmult_plus_distr_l, <- sum_upto_scal. f_equal.
    apply sum_upto_ext. intros k Hk. unfold w', nd_map.
    rewrite get_tabulate by lia. lra. }
  rewrite Hz.
  destruct (Rgt_dec (sigmoid (c * z)) 0.5) as [H | H],
           (Rgt_dec (sigmoid z) 0.5) as [H' | H'];
    rewrite sigmoid_gt_half in H, H'; try reflexivity; exfalso; nra.
Qed.

Lemma predict_scale_invariant_witness :
  let w := mk_ndarray 2 1 [[1]; [1]] in
  let X := mk_ndarray 2 2 [[0; 1]; [0; 1]] in
  exists Y_prediction,
    predict w (-1) X = Ok Y_prediction /\
    predict (nd_map (fun x => 10 * x) w) (10 * -1) X = Ok Y_prediction.
Proof.
  intros w X.
  apply (predict_scale_invariant w (-1) 10 X).
  - split; simpl; [reflexivity | repeat constructor].
  - reflexivity.
  - lra.
Defined.


